(** * pathfinder-capture: capture session manager, walkthrough store, playback

    A shallow embedding of the three stateful pieces of the application:

    - [Camera]:   the [useCamera] hook of [src/hooks/useCamera.ts]
                  (start / capture / stop / reset of a capture session);
    - [Storage]:  the [useWalkthroughStorage] hook of
                  [src/hooks/useLocalStorage.ts] (the persisted session list);
    - [Viewer]:   the playback effect and the progress value of the
                  [WalkthroughViewer] component.

    Conventions.  A JavaScript [number] that holds an integer (epoch
    milliseconds, a length, an index, a step counter) is a [Z].  React state
    is an explicit record that every callback receives and returns; a
    callback is always invoked through the closure of the latest committed
    render ([useCallback] with the state in its dependency list), so the
    [currentSession] a callback closes over is the one of the record it
    receives.  The collaborators (clock, haptics, camera, canvas) are inputs of
    the call.  [toast], [console.error] and [localStorage.setItem] are taken
    to return normally. *)

From Stdlib Require Import ZArith QArith String Ascii Decimal DecimalString DecimalZ.
From stdpp Require Import base list strings gmap.

Local Open Scope string_scope.
Local Open Scope Z_scope.

(** ** Numbers in template strings *)

(** [`${n}`] for an integer [n] below 1e21: its decimal digits, with a
    leading minus sign when negative. *)
Definition string_of_number (n : Z) : string :=
  NilEmpty.string_of_int (Z.to_int n).

(** ** The data model of [types/walkthrough.ts] *)

Module WalkthroughFrame.
Record t := mk {
  id : string;
  imageData : string;
  timestamp : Z;
  position : option (Z * Z * Z);
  orientation : option (Z * Z * Z)
}.
End WalkthroughFrame.

Module CaptureSession.
Record t := mk {
  id : string;
  frames : list WalkthroughFrame.t;
  startTime : Z;
  isActive : bool;
  currentStep : Z;
  totalSteps : Z
}.
End CaptureSession.

(** ** [useCamera] *)

Module Camera.
Import CaptureSession.

(** The two [useState] cells of the hook, and the part of [localStorage]
    the hook writes: key [session_<id>] holds the frames of a stopped
    session. *)
Record HookState := mkHook {
  isCapturing : bool;
  currentSession : option CaptureSession.t;
  localStorage : gmap string (list WalkthroughFrame.t)
}.

(** The hook as first mounted: [useState(false)], [useState(null)]. *)
Definition idle : HookState :=
  {| isCapturing := false; currentSession := None; localStorage := ∅ |}.

(** What one [captureFrame] call meets outside the hook.  [capacitor] is
    [isCapacitorAvailable()]; [haptics] says whether [Haptics.impact]
    resolves; [photo] is the data URL [Camera.getPhoto] resolves with, or
    [None] when it rejects; [canvas] is the data URL of the browser
    placeholder, or [None] when drawing it throws; [now_id] and [now_ts]
    are the two readings of [Date.now()]. *)
Record World := mkWorld {
  capacitor : bool;
  haptics : bool;
  photo : option string;
  canvas : option string;
  now_id : Z;
  now_ts : Z
}.

(** The body of the [try] block up to [imageData]: [None] is a throw. *)
Definition acquire (w : World) : option string :=
  if capacitor w then
    if haptics w then photo w else None
  else canvas w.

Definition session_id (now : Z) : string :=
  "session_" +:+ string_of_number now.

Definition frame_id (now : Z) (count : nat) : string :=
  "frame_" +:+ string_of_number now +:+ "_" +:+ string_of_number (Z.of_nat count).

(** The [frame] object [captureFrame] builds once it has [imageData]. *)
Definition frame (cur : CaptureSession.t) (w : World) (data : string)
  : WalkthroughFrame.t :=
  {| WalkthroughFrame.id := frame_id (now_id w) (length (frames cur));
     WalkthroughFrame.imageData := data;
     WalkthroughFrame.timestamp := now_ts w;
     WalkthroughFrame.position := None;
     WalkthroughFrame.orientation := None |}.

(** Its [updatedSession]: the frame added at the end, one more step. *)
Definition updatedSession (cur : CaptureSession.t) (w : World) (data : string)
  : CaptureSession.t :=
  {| id := id cur;
     frames := frames cur ++ [frame cur w data];
     startTime := startTime cur;
     isActive := isActive cur;
     currentStep := currentStep cur + 1;
     totalSteps := totalSteps cur |}.

(** [{ ...currentSession, isActive: false }] *)
Definition completedSession (cur : CaptureSession.t) : CaptureSession.t :=
  {| id := id cur;
     frames := frames cur;
     startTime := startTime cur;
     isActive := false;
     currentStep := currentStep cur;
     totalSteps := totalSteps cur |}.

Definition startCaptureSession (now_id now_start : Z) (st : HookState)
  : CaptureSession.t * HookState :=
  let session :=
    {| id := session_id now_id;
       frames := [];
       startTime := now_start;
       isActive := true;
       currentStep := 0;
       totalSteps := 10 |} in
  (session,
   {| isCapturing := true;
      currentSession := Some session;
      localStorage := localStorage st |}).

Definition captureFrame (w : World) (st : HookState)
  : option WalkthroughFrame.t * HookState :=
  match currentSession st with
  | None => (None, st)
  | Some cur =>
      match acquire w with
      | Some data =>
          (Some (frame cur w data),
           {| isCapturing := isCapturing st;
              currentSession := Some (updatedSession cur w data);
              localStorage := localStorage st |})
      | None => (None, st)
      end
  end.

Definition stopCaptureSession (st : HookState)
  : option CaptureSession.t * HookState :=
  match currentSession st with
  | Some cur =>
      (Some (completedSession cur),
       {| isCapturing := false;
          currentSession := Some (completedSession cur);
          localStorage :=
            <["session_" +:+ id (completedSession cur) := frames (completedSession cur)]>
              (localStorage st) |})
  | None =>
      (None,
       {| isCapturing := false;
          currentSession := None;
          localStorage := localStorage st |})
  end.

Definition resetSession (st : HookState) : HookState :=
  {| isCapturing := false;
     currentSession := None;
     localStorage := localStorage st |}.

(** A call of one of the four callbacks the hook returns. *)
Inductive Call :=
| Start (now_id now_start : Z)
| Capture (w : World)
| Stop
| Reset.

Definition step (st : HookState) (c : Call) : HookState :=
  match c with
  | Start t1 t2 => snd (startCaptureSession t1 t2 st)
  | Capture w => snd (captureFrame w st)
  | Stop => snd (stopCaptureSession st)
  | Reset => resetSession st
  end.

(** The calls of [cs], first to last, from state [st]. *)
Definition run (cs : list Call) (st : HookState) : HookState :=
  foldl step st cs.

(** A capture that acquires an image. *)
Definition succeeds (w : World) : bool :=
  match acquire w with
  | Some _ => true
  | None => false
  end.

(** The number of [captureFrame] calls made since the last
    [startCaptureSession] of a call sequence. *)
Definition count_step (n : nat) (c : Call) : nat :=
  match c with
  | Start _ _ => 0%nat
  | Capture _ => S n
  | Stop | Reset => n
  end.

Definition captures_since_start (cs : list Call) : nat :=
  foldl count_step 0%nat cs.

(** Whether a session has been started and not reset since. *)
Definition started_step (b : bool) (c : Call) : bool :=
  match c with
  | Start _ _ => true
  | Reset => false
  | Capture _ | Stop => b
  end.

Definition started (cs : list Call) : bool :=
  foldl started_step false cs.

(** The frame at index [i] carries the id made for count [i]. *)
Definition indexed (fs : list WalkthroughFrame.t) : Prop :=
  ∀ (i : nat) (f : WalkthroughFrame.t),
    fs !! i = Some f → ∃ now, WalkthroughFrame.id f = frame_id now i.

(** What every session the hook holds satisfies. *)
Definition well_formed (n : nat) (s : CaptureSession.t) : Prop :=
  totalSteps s = 10
  ∧ currentStep s = Z.of_nat (length (frames s))
  ∧ (length (frames s) ≤ n)%nat
  ∧ indexed (frames s).

(** The session of a state, when there is one, is [well_formed]. *)
Definition state_ok (n : nat) (st : HookState) : Prop :=
  ∀ s, currentSession st = Some s → well_formed n s.

End Camera.

(** A string without the separator of the frame id. *)
Fixpoint underscore_free (s : string) : Prop :=
  match s with
  | EmptyString => True
  | String c s' => c ≠ "_"%char ∧ underscore_free s'
  end.

(** The variant of the hook kept in the repository beside
    [src/hooks/useCamera.ts]: it has no browser fallback, and its
    [stopCaptureSession] updates the state through a functional updater and
    returns the session of the closure, as it was before the stop. *)
Module CameraLegacy.
Import CaptureSession.

Record HookState := mkHook {
  isCapturing : bool;
  currentSession : option CaptureSession.t
}.

(** The hook as first mounted. *)
Definition idle : HookState :=
  {| isCapturing := false; currentSession := None |}.

(** The same as in [src/hooks/useCamera.ts]. *)
Definition startCaptureSession (now_id now_start : Z) (st : HookState)
  : CaptureSession.t * HookState :=
  let session :=
    {| id := Camera.session_id now_id;
       frames := [];
       startTime := now_start;
       isActive := true;
       currentStep := 0;
       totalSteps := 10 |} in
  (session, {| isCapturing := true; currentSession := Some session |}).

Definition stopCaptureSession (st : HookState)
  : option CaptureSession.t * HookState :=
  let updater (prev : option CaptureSession.t) :=
    match prev with
    | Some p =>
        Some {| id := id p;
                frames := frames p;
                startTime := startTime p;
                isActive := false;
                currentStep := currentStep p;
                totalSteps := totalSteps p |}
    | None => None
    end in
  (currentSession st,
   {| isCapturing := false;
      currentSession :=
        match currentSession st with
        | Some _ => updater (currentSession st)
        | None => currentSession st
        end |}).
End CameraLegacy.

(** ** The persisted walkthrough and [Partial<WalkthroughSession>] *)

Module Metadata.
Record t := mk {
  deviceInfo : string;
  totalFrames : Z;
  duration : Z;
  totalSize : Z
}.
End Metadata.

Module WalkthroughSession.
Record t := mk {
  id : string;
  title : string;
  description : string;
  frames : list WalkthroughFrame.t;
  createdAt : Z;
  updatedAt : Z;
  isUploaded : bool;
  uploadProgress : option Z;
  location : option (Z * Z);
  metadata : Metadata.t
}.
End WalkthroughSession.

(** Every key optional; [None] is a key the object does not have. *)
Module Partial.
Record t := mk {
  id : option string;
  title : option string;
  description : option string;
  frames : option (list WalkthroughFrame.t);
  createdAt : option Z;
  updatedAt : option Z;
  isUploaded : option bool;
  uploadProgress : option (option Z);
  location : option (option (Z * Z));
  metadata : option Metadata.t
}.

(** The object literal [{}]. *)
Definition empty : t :=
  mk None None None None None None None None None None.
End Partial.

(** ** [useLocalStorage] and [useWalkthroughStorage] *)

Module Storage.
Import WalkthroughSession.

(** [storedValue] is the React state; [item] is what [localStorage] holds
    under the hook's key, read back. *)
Record Cell (T : Type) := mkCell {
  storedValue : T;
  item : option T
}.
Arguments mkCell {T}.
Arguments storedValue {T}.
Arguments item {T}.

(** [setValue] with an updater function.  [written] says whether
    [localStorage.setItem] returned; when it throws, the [catch] logs and
    the state set just before stays. *)
Definition setValue {T} (written : bool) (value : T -> T) (c : Cell T) : Cell T :=
  let valueToStore := value (storedValue c) in
  {| storedValue := valueToStore;
     item := if written then Some valueToStore else item c |}.

(** [{ ...session, ...updates, updatedAt: now }] *)
Definition merge (session : t) (updates : Partial.t) (now : Z) : t :=
  {| id := default (id session) (Partial.id updates);
     title := default (title session) (Partial.title updates);
     description := default (description session) (Partial.description updates);
     frames := default (frames session) (Partial.frames updates);
     createdAt := default (createdAt session) (Partial.createdAt updates);
     updatedAt := now;
     isUploaded := default (isUploaded session) (Partial.isUploaded updates);
     uploadProgress := default (uploadProgress session) (Partial.uploadProgress updates);
     location := default (location session) (Partial.location updates);
     metadata := default (metadata session) (Partial.metadata updates) |}.

Definition Sessions := Cell (list WalkthroughSession.t).

Definition addSession (written : bool) (session : t) (c : Sessions) : Sessions :=
  setValue written (fun prev => session :: prev) c.

(** [now] is the reading of [Date.now()] taken for a matching session. *)
Definition updateSession (written : bool) (now : Z)
    (i : string) (updates : Partial.t) (c : Sessions) : Sessions :=
  setValue written
    (fun prev =>
       (fun session =>
          if decide (id session = i) then merge session updates now
          else session) <$> prev)
    c.

Definition deleteSession (written : bool) (i : string) (c : Sessions) : Sessions :=
  setValue written
    (fun prev => filter (fun session => id session ≠ i) prev) c.

Definition getSession (i : string) (c : Sessions) : option WalkthroughSession.t :=
  list_find (fun session => id session = i) (storedValue c) ≫= (fun p => Some p.2).

End Storage.

(** ** [WalkthroughViewer]: navigation, playback, progress *)

(** The value of a JavaScript arithmetic expression over integers: a
    rational (rounding to a double is left out), an infinity, or NaN. *)
Inductive JsNumber :=
| Finite (q : Q)
| PosInfinity
| NegInfinity
| NaN.

(** [a / b] *)
Definition js_div (a b : Z) : JsNumber :=
  if b =? 0 then
    if a =? 0 then NaN
    else if 0 <? a then PosInfinity else NegInfinity
  else Finite (inject_Z a / inject_Z b).

(** [x * c] for a positive constant [c] *)
Definition js_scale (x : JsNumber) (c : Z) : JsNumber :=
  match x with
  | Finite q => Finite (q * inject_Z c)
  | other => other
  end.

Module Viewer.
Import WalkthroughSession.

(** The component's state once [getSession] has found the session. *)
Record ViewerState := mkViewer {
  session : WalkthroughSession.t;
  currentFrameIndex : Z;
  isPlaying : bool;
  playbackSpeed : Z
}.

(** [useState(0)], [useState(false)], [useState(1000)] *)
Definition load (s : WalkthroughSession.t) : ViewerState :=
  {| session := s; currentFrameIndex := 0; isPlaying := false; playbackSpeed := 1000 |}.

(** [session.frames.length] *)
Definition frameCount (st : ViewerState) : Z :=
  Z.of_nat (length (frames (session st))).

(** The state setters of the two cells the playback uses. *)
Definition setCurrentFrameIndex (i : Z) (st : ViewerState) : ViewerState :=
  {| session := session st;
     currentFrameIndex := i;
     isPlaying := isPlaying st;
     playbackSpeed := playbackSpeed st |}.

Definition setIsPlaying (p : bool) (st : ViewerState) : ViewerState :=
  {| session := session st;
     currentFrameIndex := currentFrameIndex st;
     isPlaying := p;
     playbackSpeed := playbackSpeed st |}.

Definition setPlaybackSpeed (ms : Z) (st : ViewerState) : ViewerState :=
  {| session := session st;
     currentFrameIndex := currentFrameIndex st;
     isPlaying := isPlaying st;
     playbackSpeed := ms |}.

Definition goToNextFrame (st : ViewerState) : ViewerState :=
  if currentFrameIndex st <? frameCount st - 1 then
    setCurrentFrameIndex (currentFrameIndex st + 1) st
  else st.

Definition goToPrevFrame (st : ViewerState) : ViewerState :=
  if 0 <? currentFrameIndex st then
    setCurrentFrameIndex (currentFrameIndex st - 1) st
  else st.

Definition togglePlayback (st : ViewerState) : ViewerState :=
  setIsPlaying (negb (isPlaying st)) st.

Definition resetToBeginning (st : ViewerState) : ViewerState :=
  setIsPlaying false (setCurrentFrameIndex 0 st).

(** The playback effect.  It arms an interval only while [isPlaying]; the
    cleanup clears it as soon as [isPlaying] changes.  [tick] is what the
    passing of one period does to the state: nothing when no interval is
    armed, the interval's callback otherwise. *)
Definition tick (st : ViewerState) : ViewerState :=
  if negb (isPlaying st) then st
  else if frameCount st - 1 <=? currentFrameIndex st then
    setCurrentFrameIndex 0 (setIsPlaying false st)
  else
    setCurrentFrameIndex (currentFrameIndex st + 1) st.

(** Dragging the image: [startFrameIndex] is the index when the mouse went
    down, [frameOffset] is [Math.floor(deltaX / 5)]. *)
Definition drag (startFrameIndex frameOffset : Z) (st : ViewerState) : ViewerState :=
  let newIndex :=
    Z.max 0 (Z.min (frameCount st - 1) (startFrameIndex + frameOffset)) in
  setCurrentFrameIndex newIndex st.

(** What can happen to a viewer: a key or button, a drag, the speed
    selector, the passing of one playback period. *)
Inductive Action :=
| Next
| Prev
| Toggle
| Rewind
| Speed (ms : Z)
| Drag (startFrameIndex frameOffset : Z)
| Tick.

Definition perform (st : ViewerState) (a : Action) : ViewerState :=
  match a with
  | Next => goToNextFrame st
  | Prev => goToPrevFrame st
  | Toggle => togglePlayback st
  | Rewind => resetToBeginning st
  | Speed ms => setPlaybackSpeed ms st
  | Drag startFrameIndex frameOffset => drag startFrameIndex frameOffset st
  | Tick => tick st
  end.

(** The viewer of walkthrough [s] after the actions [acts]. *)
Definition after (acts : list Action) (s : WalkthroughSession.t) : ViewerState :=
  foldl perform (load s) acts.

(** [k] periods in a row. *)
Definition ticks (k : nat) (st : ViewerState) : ViewerState :=
  Nat.iter k tick st.

(** [progress]: the guard is on [frames.length > 0], the divisor is
    [frames.length - 1]. *)
Definition progress (st : ViewerState) : JsNumber :=
  if 0 <? frameCount st then
    js_scale (js_div (currentFrameIndex st) (frameCount st - 1)) 100
  else Finite 0.

(** The [disabled] attribute of the "previous" and "next" buttons. *)
Definition prevDisabled (st : ViewerState) : bool :=
  currentFrameIndex st =? 0.

Definition nextDisabled (st : ViewerState) : bool :=
  currentFrameIndex st =? frameCount st - 1.

End Viewer.

(** ** Sample inputs *)

Module Examples.

(** A capture in the browser: no Capacitor, the placeholder is drawn. *)
Definition browser_frame : Camera.World :=
  {| Camera.capacitor := false;
     Camera.haptics := false;
     Camera.photo := None;
     Camera.canvas := Some "data:image/png;base64,iVBORw0KGgo=";
     Camera.now_id := 1700000000000;
     Camera.now_ts := 1700000000000 |}.

(** A capture on a device whose camera rejects the request. *)
Definition camera_denied : Camera.World :=
  {| Camera.capacitor := true;
     Camera.haptics := true;
     Camera.photo := None;
     Camera.canvas := None;
     Camera.now_id := 1700000002000;
     Camera.now_ts := 1700000002000 |}.

(** A capture on a device: haptic pulse, then a photo. *)
Definition device_frame : Camera.World :=
  {| Camera.capacitor := true;
     Camera.haptics := true;
     Camera.photo := Some "data:image/jpeg;base64,/9j/4AAQ";
     Camera.canvas := None;
     Camera.now_id := 1700000004000;
     Camera.now_ts := 1700000004001 |}.

(** A captured frame as it is stored. *)
Definition stored_frame (count : nat) : WalkthroughFrame.t :=
  {| WalkthroughFrame.id := Camera.frame_id 1700000000000 count;
     WalkthroughFrame.imageData := "data:image/png;base64,iVBORw0KGgo=";
     WalkthroughFrame.timestamp := 1700000000000 + 2000 * Z.of_nat count;
     WalkthroughFrame.position := None;
     WalkthroughFrame.orientation := None |}.

(** A saved walkthrough with [count] frames. *)
Definition saved (i : string) (count : nat) (created updated : Z)
  : WalkthroughSession.t :=
  {| WalkthroughSession.id := i;
     WalkthroughSession.title := "Library Entrance";
     WalkthroughSession.description := "";
     WalkthroughSession.frames := stored_frame <$> seq 0 count;
     WalkthroughSession.createdAt := created;
     WalkthroughSession.updatedAt := updated;
     WalkthroughSession.isUploaded := false;
     WalkthroughSession.uploadProgress := None;
     WalkthroughSession.location := None;
     WalkthroughSession.metadata :=
       {| Metadata.deviceInfo := "Mozilla/5.0";
          Metadata.totalFrames := Z.of_nat count;
          Metadata.duration := 0;
          Metadata.totalSize := 0 |} |}.

(** The store holding two walkthroughs, most recent first. *)
Definition two_sessions : Storage.Sessions :=
  {| Storage.storedValue :=
       [saved "session_1700000100000" 5 1700000120000 1700000120000;
        saved "session_1700000000000" 1 1700000020000 1700000020000];
     Storage.item := None |}.

(** [{ isUploaded: true }], the one update the application makes. *)
Definition mark_uploaded : Partial.t :=
  {| Partial.id := None;
     Partial.title := None;
     Partial.description := None;
     Partial.frames := None;
     Partial.createdAt := None;
     Partial.updatedAt := None;
     Partial.isUploaded := Some true;
     Partial.uploadProgress := None;
     Partial.location := None;
     Partial.metadata := None |}.

(** [{ createdAt: c }] *)
Definition set_createdAt (c : Z) : Partial.t :=
  {| Partial.id := None;
     Partial.title := None;
     Partial.description := None;
     Partial.frames := None;
     Partial.createdAt := Some c;
     Partial.updatedAt := None;
     Partial.isUploaded := None;
     Partial.uploadProgress := None;
     Partial.location := None;
     Partial.metadata := None |}.

(** The viewer just after loading a walkthrough of [count] frames. *)
Definition viewing (count : nat) : Viewer.ViewerState :=
  Viewer.load (saved "session_1700000000000" count 1700000020000 1700000020000).

End Examples.

(** ** Call sequences of the hook, counted *)

Module CameraTrace.
Import CaptureSession Camera.

(** The number of [captureFrame] calls that acquired an image since the
    last [startCaptureSession]. *)
Definition success_step (n : nat) (c : Call) : nat :=
  match c with
  | Start _ _ => 0%nat
  | Capture w => if succeeds w then S n else n
  | Stop | Reset => n
  end.

Definition successes_since_start (cs : list Call) : nat :=
  foldl success_step 0%nat cs.

(** A call that neither starts nor resets. *)
Definition keeps_session (c : Call) : bool :=
  match c with
  | Capture _ | Stop => true
  | Start _ _ | Reset => false
  end.

(** [isCapturing] as the session tells it. *)
Definition session_active (st : HookState) : bool :=
  match currentSession st with
  | Some s => isActive s
  | None => false
  end.

End CameraTrace.

(** ** Sequences of store operations *)

Module StoreTrace.
Import WalkthroughSession Storage.

Inductive Op :=
| Add (written : bool) (session : WalkthroughSession.t)
| Update (written : bool) (now : Z) (i : string) (updates : Partial.t)
| Delete (written : bool) (i : string).

Definition apply (c : Sessions) (o : Op) : Sessions :=
  match o with
  | Add written session => addSession written session c
  | Update written now i updates => updateSession written now i updates c
  | Delete written i => deleteSession written i c
  end.

Definition run (ops : list Op) (c : Sessions) : Sessions :=
  foldl apply c ops.

(** Whether [localStorage.setItem] returned for the operation. *)
Definition wrote (o : Op) : bool :=
  match o with
  | Add written _ | Update written _ _ _ | Delete written _ => written
  end.

(** The same operation with the write going through. *)
Definition writing (o : Op) : Op :=
  match o with
  | Add _ session => Add true session
  | Update _ now i updates => Update true now i updates
  | Delete _ i => Delete true i
  end.

End StoreTrace.

(** ** What the viewer renders *)

(** [xs[i]] for an integer [i]: undefined out of range. *)
Definition js_index {A : Type} (xs : list A) (i : Z) : option A :=
  if i <? 0 then None else xs !! Z.to_nat i.

Module ViewerRender.
Import WalkthroughSession Viewer.

(** [session.frames[currentFrameIndex]] *)
Definition currentFrame (st : ViewerState) : option WalkthroughFrame.t :=
  js_index (frames (session st)) (currentFrameIndex st).

(** [n] presses of the "next" button. *)
Definition nexts (n : nat) (st : ViewerState) : ViewerState :=
  Nat.iter n goToNextFrame st.

(** A finite JavaScript number between [lo] and [hi]. *)
Definition between (lo hi : Q) (x : JsNumber) : Prop :=
  match x with
  | Finite q => (lo <= q)%Q ∧ (q <= hi)%Q
  | _ => False
  end.

End ViewerRender.

(** ** [WalkthroughGallery]: [formatDuration] *)

Module Gallery.

(** [s.padStart(2, '0')] *)
Definition padStart2 (s : string) : string :=
  match String.length s with
  | 0%nat => "00"
  | 1%nat => "0" +:+ s
  | _ => s
  end.

(** [Number.MAX_SAFE_INTEGER], 2^53 - 1. *)
Definition MAX_SAFE_INTEGER : Z := 9007199254740991.

(** [milliseconds] is an integer of magnitude at most [MAX_SAFE_INTEGER]:
    there the quotients, computed in doubles, have the floor of the exact
    ones, which is [Z.div]; beyond it they need not.  [%] is the remainder
    with the sign of the dividend. *)
Definition formatDuration (milliseconds : Z) : string :=
  let seconds := milliseconds / 1000 in
  let minutes := seconds / 60 in
  let remainingSeconds := Z.rem seconds 60 in
  string_of_number minutes +:+ ":" +:+ padStart2 (string_of_number remainingSeconds).

(** The seconds a gallery card can show. *)
Definition seconds_shown : list string :=
  (λ r, padStart2 (string_of_number r)) <$> seqZ 0 60.

End Gallery.

(** A string without a colon. *)
Fixpoint colon_free (s : string) : Prop :=
  match s with
  | EmptyString => True
  | String c s' => c ≠ ":"%char ∧ colon_free s'
  end.

(** ** [CameraInterface]: guidance, progress, the stop button *)

Module CameraInterface.
Import CaptureSession.

Definition GUIDANCE_STEPS : list string :=
  [ "Point your camera straight ahead to begin";
    "Slowly start moving your camera to the right";
    "Keep moving steadily in a circle";
    "Continue moving at the same pace";
    "Great! You're halfway around";
    "Keep the steady movement going";
    "Almost complete - keep moving";
    "Perfect! Finishing up the capture";
    "Excellent! Processing your walkthrough";
    "Walkthrough capture complete!" ].

(** [x || d] for a number [x] (an integer here: 0 is the falsy one). *)
Definition or_default (x : option Z) (d : Z) : Z :=
  match x with
  | Some v => if v =? 0 then d else v
  | None => d
  end.

(** [currentSession?.currentStep || 0] *)
Definition currentStep (st : Camera.HookState) : Z :=
  or_default (CaptureSession.currentStep <$> Camera.currentSession st) 0.

(** [currentSession?.totalSteps || GUIDANCE_STEPS.length] *)
Definition totalSteps (st : Camera.HookState) : Z :=
  or_default (CaptureSession.totalSteps <$> Camera.currentSession st)
    (Z.of_nat (length GUIDANCE_STEPS)).

(** [(currentStep / totalSteps) * 100] *)
Definition progress (st : Camera.HookState) : JsNumber :=
  js_scale (js_div (currentStep st) (totalSteps st)) 100.

(** [GUIDANCE_STEPS[Math.min(currentStep, GUIDANCE_STEPS.length - 1)]] *)
Definition guidanceText (st : Camera.HookState) : option string :=
  js_index GUIDANCE_STEPS
    (Z.min (currentStep st) (Z.of_nat (length GUIDANCE_STEPS) - 1)).

(** Which of its two props [handleStop] calls.  (The auto-capture flag
    and its interval, which [handleStop] also clears, are left out.) *)
Inductive Outcome :=
| onSessionComplete (sessionId : string)
| onClose.

Definition handleStop (st : Camera.HookState) : Outcome * Camera.HookState :=
  let (completedSession, st') := Camera.stopCaptureSession st in
  (match completedSession with
   | Some s =>
       if 0 <? Z.of_nat (length (frames s)) then onSessionComplete (id s)
       else onClose
   | None => onClose
   end,
   st').

End CameraInterface.

(** ** [DescriptionInput] and the [Index] page *)

Module DescriptionInput.
Section WithTrim.

(** [String.prototype.trim] *)
Variable trim : string → string.

(** What [handleSave] passes to [onSave], if it calls it. *)
Definition handleSave (title description : string) : option (string * string) :=
  if decide (trim title = "") then None
  else Some (trim title, trim description).

End WithTrim.
End DescriptionInput.

Module Index.
Import WalkthroughSession.

Inductive AppView := home | camera | gallery | viewer | description.

Record PageState := mkPage {
  currentView : AppView;
  selectedSessionId : string;
  pendingSessionId : string;
  sessions : Storage.Sessions
}.

Definition handleCameraSessionComplete (sessionId : string) (st : PageState) : PageState :=
  {| currentView := description;
     selectedSessionId := selectedSessionId st;
     pendingSessionId := sessionId;
     sessions := sessions st |}.

(** [now_created] and [now_updated] are the two readings of [Date.now()],
    [userAgent] is [navigator.userAgent]. *)
Definition handleDescriptionSave (written : bool) (now_created now_updated : Z)
    (userAgent : string) (title description : string) (st : PageState) : PageState :=
  if decide (pendingSessionId st = "") then st
  else
    let mockSession :=
      {| id := pendingSessionId st;
         WalkthroughSession.title := title;
         WalkthroughSession.description := description;
         frames := [];
         createdAt := now_created;
         updatedAt := now_updated;
         isUploaded := false;
         uploadProgress := None;
         location := None;
         metadata :=
           {| Metadata.deviceInfo := userAgent;
              Metadata.totalFrames := 0;
              Metadata.duration := 0;
              Metadata.totalSize := 0 |} |} in
    {| currentView := gallery;
       selectedSessionId := selectedSessionId st;
       pendingSessionId := "";
       sessions := Storage.addSession written mockSession (sessions st) |}.

Definition handleDescriptionCancel (st : PageState) : PageState :=
  {| currentView := home;
     selectedSessionId := selectedSessionId st;
     pendingSessionId := "";
     sessions := sessions st |}.

Definition handleViewSession (sessionId : string) (st : PageState) : PageState :=
  {| currentView := viewer;
     selectedSessionId := sessionId;
     pendingSessionId := pendingSessionId st;
     sessions := sessions st |}.

(** The "Save" button of the description screen: [DescriptionInput]'s
    [handleSave], then the page's [onSave]. *)
Definition save (trim : string → string) (written : bool) (now_created now_updated : Z)
    (userAgent : string) (title description : string) (st : PageState) : PageState :=
  match DescriptionInput.handleSave trim title description with
  | Some (t, d) => handleDescriptionSave written now_created now_updated userAgent t d st
  | None => st
  end.

End Index.

(** * Properties *)

(** ** Decimal strings *)

Lemma string_of_uint_underscore_free (d : uint) :
  underscore_free (NilEmpty.string_of_uint d).
Proof. induction d; simpl; auto; split; auto; discriminate. Qed.

Lemma string_of_number_underscore_free (n : Z) :
  underscore_free (string_of_number n).
Proof.
  unfold string_of_number, NilEmpty.string_of_int.
  destruct (Z.to_int n) as [d|d]; simpl.
  - apply string_of_uint_underscore_free.
  - split; [discriminate | apply string_of_uint_underscore_free].
Qed.

Lemma string_of_number_inj (n m : Z) :
  string_of_number n = string_of_number m → n = m.
Proof.
  unfold string_of_number. intros E.
  apply (f_equal NilEmpty.int_of_string) in E.
  rewrite !NilEmpty.isi in E.
  injection E as E.
  rewrite <- (DecimalZ.of_to n), <- (DecimalZ.of_to m).
  now rewrite E.
Qed.

(** Two strings cut at their first underscore agree part by part. *)
Lemma split_at_underscore (a a' b b' : string) :
  underscore_free a → underscore_free a' →
  a +:+ String "_" b = a' +:+ String "_" b' →
  a = a' ∧ b = b'.
Proof.
  revert a'. induction a as [|c a IH]; intros [|c' a'] Ha Ha' E; simpl in *.
  - injection E as E. auto.
  - injection E as Ec _. destruct Ha' as [Hc _]. congruence.
  - injection E as Ec _. destruct Ha as [Hc _]. congruence.
  - injection E as Ec E. destruct Ha as [_ Ha], Ha' as [_ Ha'].
    destruct (IH a' Ha Ha' E) as [-> ->]. subst. auto.
Qed.

Module CameraSpec.
Import CaptureSession Camera.

Lemma frame_id_inj (now now' : Z) (n n' : nat) :
  frame_id now n = frame_id now' n' → now = now' ∧ n = n'.
Proof.
  unfold frame_id. simpl. intros E.
  injection E as E.
  apply split_at_underscore in E; auto using string_of_number_underscore_free.
  destruct E as [E1 E2].
  apply string_of_number_inj in E1, E2.
  split; [assumption | lia].
Qed.

Lemma indexed_NoDup (fs : list WalkthroughFrame.t) :
  indexed fs → NoDup (WalkthroughFrame.id <$> fs).
Proof.
  intros Hfs. apply NoDup_alt. intros i j x Hi Hj.
  apply list_lookup_fmap_Some_1 in Hi as (f & -> & Hi).
  apply list_lookup_fmap_Some_1 in Hj as (g & Hg & Hj).
  destruct (Hfs i f Hi) as [t Ht], (Hfs j g Hj) as [t' Ht'].
  rewrite Ht, Ht' in Hg.
  now apply frame_id_inj in Hg.
Qed.

Lemma indexed_snoc (fs : list WalkthroughFrame.t) (f : WalkthroughFrame.t) (now : Z) :
  indexed fs → WalkthroughFrame.id f = frame_id now (length fs) →
  indexed (fs ++ [f]).
Proof.
  intros Hfs Hf i g Hi.
  apply lookup_snoc_Some in Hi as [[_ Hi] | [-> ->]]; eauto.
Qed.

Lemma run_snoc (cs : list Call) (c : Call) (st : HookState) :
  run (cs ++ [c]) st = step (run cs st) c.
Proof. unfold run. now rewrite foldl_app. Qed.

Lemma step_ok (n : nat) (st : HookState) (c : Call) :
  state_ok n st → state_ok (count_step n c) (step st c).
Proof.
  intros Hst. destruct c as [t1 t2 | w | | ]; simpl.
  - intros s [= <-]. repeat split; simpl; auto. intros i f Hi. discriminate.
  - unfold captureFrame.
    destruct (currentSession st) as [cur|] eqn:Hcur; [|intros s; simpl; congruence].
    destruct (Hst cur Hcur) as (Ht & Hs & Hn & Hi).
    destruct (acquire w) as [data|]; simpl.
    + intros s [= <-]. repeat split; simpl; auto.
      * rewrite length_app. simpl. lia.
      * rewrite length_app. simpl. lia.
      * eapply indexed_snoc; eauto.
    + intros s Hs'. rewrite Hcur in Hs'. injection Hs' as <-.
      repeat split; auto.
  - unfold stopCaptureSession.
    destruct (currentSession st) as [cur|] eqn:Hcur; simpl; [|intros s; discriminate].
    destruct (Hst cur Hcur) as (Ht & Hs & Hn & Hi).
    intros s [= <-]. repeat split; auto.
  - intros s. discriminate.
Qed.

Lemma run_ok (cs : list Call) :
  state_ok (captures_since_start cs) (run cs idle).
Proof.
  induction cs as [|c cs IH] using rev_ind.
  - intros s. discriminate.
  - rewrite run_snoc. unfold captures_since_start. rewrite foldl_app. simpl.
    now apply step_ok.
Qed.

Lemma run_cons (c : Call) (cs : list Call) (st : HookState) :
  run (c :: cs) st = run cs (step st c).
Proof. reflexivity. Qed.

Lemma run_app (cs cs' : list Call) (st : HookState) :
  run (cs ++ cs') st = run cs' (run cs st).
Proof. unfold run. apply foldl_app. Qed.

Lemma stopCaptureSession_Some (st : HookState) (cur : CaptureSession.t) :
  currentSession st = Some cur →
  stopCaptureSession st =
    (Some (completedSession cur),
     {| isCapturing := false;
        currentSession := Some (completedSession cur);
        localStorage :=
          <["session_" +:+ id cur := frames cur]> (localStorage st) |}).
Proof. intros H. unfold stopCaptureSession. now rewrite H. Qed.

Lemma stopCaptureSession_None (st : HookState) :
  currentSession st = None →
  stopCaptureSession st =
    (None,
     {| isCapturing := false;
        currentSession := None;
        localStorage := localStorage st |}).
Proof. intros H. unfold stopCaptureSession. now rewrite H. Qed.

(** A capture that acquires an image returns the frame it stored. *)
Lemma captureFrame_success (w : World) (st : HookState) (cur : CaptureSession.t) :
  currentSession st = Some cur →
  succeeds w = true →
  ∃ data,
    acquire w = Some data
    ∧ captureFrame w st =
        (Some (frame cur w data),
         {| isCapturing := isCapturing st;
            currentSession := Some (updatedSession cur w data);
            localStorage := localStorage st |}).
Proof.
  intros Hcur Hw. unfold succeeds in Hw. unfold captureFrame. rewrite Hcur.
  destruct (acquire w) as [data|]; [eauto | discriminate].
Qed.

(** Successful captures only append frames and count steps. *)
Lemma captures_accumulate (ws : list World) (st : HookState) (cur : CaptureSession.t) :
  currentSession st = Some cur →
  forallb succeeds ws = true →
  ∃ s, currentSession (run (Capture <$> ws) st) = Some s
     ∧ length (frames s) = (length (frames cur) + length ws)%nat
     ∧ currentStep s = currentStep cur + Z.of_nat (length ws)
     ∧ isActive s = isActive cur
     ∧ totalSteps s = totalSteps cur
     ∧ isCapturing (run (Capture <$> ws) st) = isCapturing st.
Proof.
  revert st cur. induction ws as [|w ws IH]; intros st cur Hcur Hok.
  - exists cur. simpl. repeat split; auto; lia.
  - simpl in Hok. apply andb_true_iff in Hok as [Hw Hok].
    rewrite fmap_cons, run_cons.
    destruct (captureFrame_success w st cur Hcur Hw) as (data & _ & Hcall).
    destruct (IH (step st (Capture w)) (updatedSession cur w data))
      as (s & Hs & Hlen & Hstep & Hact & Htot & Hcap).
    { simpl. now rewrite Hcall. }
    { exact Hok. }
    exists s. unfold updatedSession in *. simpl in Hlen, Hstep, Hact, Htot.
    rewrite length_app in Hlen. simpl in Hlen.
    assert (isCapturing (step st (Capture w)) = isCapturing st) as Hc.
    { simpl. now rewrite Hcall. }
    simpl length. repeat split; auto; try lia. congruence.
Qed.

(** C1: from the idle hook, [startCaptureSession], ten successful
    [captureFrame] calls and [stopCaptureSession] give a session (both the
    one returned by the stop and the one left in the state) with exactly
    ten frames, [currentStep] 10 and [isActive] false. *)
Theorem full_capture_sequence (t1 t2 : Z) (ws : list World) :
  length ws = 10%nat →
  forallb succeeds ws = true →
  ∃ s, (stopCaptureSession (run (Start t1 t2 :: (Capture <$> ws)) idle)).1 = Some s
     ∧ currentSession (run (Start t1 t2 :: (Capture <$> ws) ++ [Stop]) idle) = Some s
     ∧ length (frames s) = 10%nat
     ∧ currentStep s = 10
     ∧ isActive s = false.
Proof.
  intros Hlen Hok.
  rewrite app_comm_cons, run_app, !run_cons.
  destruct (captures_accumulate ws (step idle (Start t1 t2))
              (startCaptureSession t1 t2 idle).1 eq_refl Hok)
    as (s & Hs & Hl & Hstep & Hact & Htot & Hcap).
  simpl in Hl, Hstep.
  change (run [] ?x) with x.
  change (step ?st Stop) with (stopCaptureSession st).2.
  rewrite !(stopCaptureSession_Some _ s) by exact Hs.
  exists (completedSession s). repeat split; simpl; try reflexivity; lia.
Qed.

Lemma full_capture_sequence_witness :
  length (replicate 10 Examples.browser_frame) = 10%nat
  ∧ forallb succeeds (replicate 10 Examples.browser_frame) = true
  ∧ ∃ s, (stopCaptureSession
            (run (Start 1699999999000 1699999999000
                    :: (Capture <$> replicate 10 Examples.browser_frame)) idle)).1 = Some s
       ∧ currentSession
           (run (Start 1699999999000 1699999999000
                   :: (Capture <$> replicate 10 Examples.browser_frame) ++ [Stop]) idle) = Some s
       ∧ length (frames s) = 10%nat
       ∧ currentStep s = 10
       ∧ isActive s = false.
Proof.
  split; [reflexivity | split; [reflexivity |]].
  apply (full_capture_sequence 1699999999000 1699999999000
           (replicate 10 Examples.browser_frame)); reflexivity.
Defined.

(** C2, as the code has it: the session the hook holds always has
    [totalSteps] 10 and a [currentStep] equal to its number of frames,
    which is at most the number of [captureFrame] calls made since it was
    started; so [currentStep] stays within [totalSteps] as long as the
    caller makes at most ten such calls. *)
Theorem currentStep_counts_captures (cs : list Call) (s : CaptureSession.t) :
  currentSession (run cs idle) = Some s →
  totalSteps s = 10
  ∧ currentStep s = Z.of_nat (length (frames s))
  ∧ currentStep s ≤ Z.of_nat (captures_since_start cs)
  ∧ ((captures_since_start cs ≤ 10)%nat → currentStep s ≤ totalSteps s).
Proof.
  intros Hs. destruct (run_ok cs s Hs) as (Ht & Hc & Hn & _).
  repeat split; auto; lia.
Qed.

Lemma currentStep_counts_captures_witness :
  ∃ s,
    currentSession
      (run [Start 1699999999000 1699999999000;
            Capture Examples.device_frame;
            Capture Examples.camera_denied;
            Capture Examples.browser_frame] idle) = Some s
    ∧ totalSteps s = 10
    ∧ currentStep s = Z.of_nat (length (frames s))
    ∧ currentStep s ≤ 3
    ∧ ((3 ≤ 10)%nat → currentStep s ≤ totalSteps s).
Proof.
  eexists. split; [vm_compute; reflexivity |].
  apply (currentStep_counts_captures
           [Start 1699999999000 1699999999000;
            Capture Examples.device_frame;
            Capture Examples.camera_denied;
            Capture Examples.browser_frame]).
  vm_compute. reflexivity.
Defined.

(** C2 as stated fails: nothing in the hook refuses an eleventh capture. *)
Lemma eleventh_capture_exceeds_totalSteps :
  ∃ s,
    currentSession
      (run (Start 1699999999000 1699999999000
              :: (Capture <$> replicate 11 Examples.browser_frame)) idle) = Some s
    ∧ currentStep s = 11
    ∧ totalSteps s = 10
    ∧ ¬ (currentStep s ≤ totalSteps s).
Proof.
  eexists. split; [vm_compute; reflexivity |].
  simpl. repeat split; lia.
Qed.

Lemma started_snoc (cs : list Call) (c : Call) :
  started (cs ++ [c]) = started_step (started cs) c.
Proof. unfold started. now rewrite foldl_app. Qed.

(** [started] tells whether the hook holds a session. *)
Lemma started_currentSession (cs : list Call) :
  started cs = true ↔ is_Some (currentSession (run cs idle)).
Proof.
  induction cs as [|c cs IH] using rev_ind.
  - simpl. split; [discriminate | intros [? [=]]].
  - rewrite started_snoc, run_snoc.
    destruct c as [t1 t2 | w | | ]; simpl.
    + split; eauto.
    + rewrite IH. unfold captureFrame.
      destruct (currentSession (run cs idle)) as [cur|] eqn:Hcur.
      * destruct (acquire w); simpl; rewrite ?Hcur; split; eauto.
      * simpl. now rewrite Hcur.
    + rewrite IH. unfold stopCaptureSession.
      destruct (currentSession (run cs idle)) as [cur|]; simpl.
      * split; eauto.
      * reflexivity.
    + split; [discriminate | intros [? [=]]].
Qed.

Lemma never_started (cs : list Call) :
  (∀ t1 t2, Start t1 t2 ∉ cs) → started cs = false.
Proof.
  induction cs as [|c cs IH] using rev_ind; intros Hcs; [reflexivity |].
  rewrite started_snoc.
  assert (started cs = false) as ->.
  { apply IH. intros t1 t2 Hin. apply (Hcs t1 t2). set_solver. }
  destruct c as [t1 t2 | | | ]; simpl; auto.
  exfalso. apply (Hcs t1 t2). set_solver.
Qed.

(** The hook of [src/hooks/useCamera.ts]: after a call sequence that
    started a session and has not reset it since, [stopCaptureSession]
    returns that session with [isActive] false and every other field as it
    was, and leaves it in the state; after a call sequence with no
    [startCaptureSession] at all it returns null. *)
Theorem stopCaptureSession_result (cs : list Call) :
  (started cs = true →
     ∃ cur s,
       currentSession (run cs idle) = Some cur
       ∧ (stopCaptureSession (run cs idle)).1 = Some s
       ∧ currentSession (stopCaptureSession (run cs idle)).2 = Some s
       ∧ isActive s = false
       ∧ id s = id cur
       ∧ frames s = frames cur
       ∧ startTime s = startTime cur
       ∧ currentStep s = currentStep cur
       ∧ totalSteps s = totalSteps cur)
  ∧ ((∀ t1 t2, Start t1 t2 ∉ cs) →
     (stopCaptureSession (run cs idle)).1 = None).
Proof.
  split.
  - intros Hst. apply started_currentSession in Hst as [cur Hcur].
    exists cur, (completedSession cur).
    rewrite (stopCaptureSession_Some _ cur Hcur). simpl. repeat split; auto.
  - intros Hcs. apply never_started in Hcs.
    destruct (currentSession (run cs idle)) as [cur|] eqn:Hcur.
    + assert (started cs = true) by (apply started_currentSession; eauto).
      congruence.
    + now rewrite (stopCaptureSession_None _ Hcur).
Qed.

Lemma stopCaptureSession_result_witness :
  (started [Start 1699999999000 1699999999000;
            Capture Examples.browser_frame] = true
   ∧ ∃ cur s,
       currentSession
         (run [Start 1699999999000 1699999999000;
               Capture Examples.browser_frame] idle) = Some cur
       ∧ (stopCaptureSession
            (run [Start 1699999999000 1699999999000;
                  Capture Examples.browser_frame] idle)).1 = Some s
       ∧ currentSession
           (stopCaptureSession
              (run [Start 1699999999000 1699999999000;
                    Capture Examples.browser_frame] idle)).2 = Some s
       ∧ isActive s = false
       ∧ id s = id cur
       ∧ frames s = frames cur
       ∧ startTime s = startTime cur
       ∧ currentStep s = currentStep cur
       ∧ totalSteps s = totalSteps cur)
  ∧ ((∀ t1 t2, Start t1 t2 ∉ [Capture Examples.browser_frame; Stop])
     ∧ (stopCaptureSession
          (run [Capture Examples.browser_frame; Stop] idle)).1 = None).
Proof.
  split.
  - split; [reflexivity |].
    apply (proj1 (stopCaptureSession_result
                    [Start 1699999999000 1699999999000;
                     Capture Examples.browser_frame])).
    reflexivity.
  - assert (∀ t1 t2, Start t1 t2 ∉ [Capture Examples.browser_frame; Stop]) as Hno.
    { intros t1 t2 Hin.
      apply elem_of_cons in Hin as [Hin | Hin]; [discriminate |].
      apply elem_of_cons in Hin as [Hin | Hin]; [discriminate |].
      inversion Hin. }
    split; [exact Hno |].
    apply (proj2 (stopCaptureSession_result
                    [Capture Examples.browser_frame; Stop])).
    exact Hno.
Defined.

(** A throw inside the [try] block: the [catch] returns null and no state
    setter has run. *)
Lemma captureFrame_throw (w : World) (st : HookState) :
  acquire w = None → captureFrame w st = (None, st).
Proof.
  intros Hw. unfold captureFrame.
  destruct (currentSession st); [now rewrite Hw | reflexivity].
Qed.

(** C6: with an active session, when the haptics call or the camera call
    fails, [captureFrame] returns null and the hook's state (so the
    session's frames, [currentStep] and [isActive]) is the one before the
    call; any later call therefore behaves as if the failed one had not
    been made. *)
Theorem captureFrame_failure_keeps_session
    (w : World) (st : HookState) (cur : CaptureSession.t) :
  currentSession st = Some cur →
  isActive cur = true →
  capacitor w = true →
  haptics w = false ∨ photo w = None →
  (captureFrame w st).1 = None
  ∧ (captureFrame w st).2 = st
  ∧ currentSession (captureFrame w st).2 = Some cur
  ∧ ∀ c : Call, step (captureFrame w st).2 c = step st c.
Proof.
  intros Hcur _ Hcap Hfail.
  assert (acquire w = None) as Hw.
  { unfold acquire. rewrite Hcap. destruct Hfail as [-> | ->]; [reflexivity |].
    now destruct (haptics w). }
  rewrite (captureFrame_throw w st Hw). simpl. auto.
Qed.

Lemma captureFrame_failure_keeps_session_witness :
  let st := run [Start 1699999999000 1699999999000;
                 Capture Examples.device_frame] idle in
  let cur := updatedSession (startCaptureSession 1699999999000 1699999999000 idle).1
               Examples.device_frame "data:image/jpeg;base64,/9j/4AAQ" in
  currentSession st = Some cur
  ∧ isActive cur = true
  ∧ capacitor Examples.camera_denied = true
  ∧ (haptics Examples.camera_denied = false ∨ photo Examples.camera_denied = None)
  ∧ (captureFrame Examples.camera_denied st).1 = None
  ∧ (captureFrame Examples.camera_denied st).2 = st
  ∧ currentSession (captureFrame Examples.camera_denied st).2 = Some cur
  ∧ ∀ c : Call, step (captureFrame Examples.camera_denied st).2 c = step st c.
Proof.
  intros st cur.
  split; [reflexivity |].
  split; [reflexivity |].
  split; [reflexivity |].
  split; [right; reflexivity |].
  apply (captureFrame_failure_keeps_session Examples.camera_denied st cur);
    [reflexivity | reflexivity | reflexivity | right; reflexivity].
Defined.

(** C8: the frames of the session the hook holds have pairwise distinct
    ids, whatever the clock read at each capture: the id ends with the
    number of frames captured before it. *)
Theorem frame_ids_pairwise_distinct (cs : list Call) (s : CaptureSession.t) :
  currentSession (run cs idle) = Some s →
  NoDup (WalkthroughFrame.id <$> frames s).
Proof.
  intros Hs. apply indexed_NoDup.
  now destruct (run_ok cs s Hs) as (_ & _ & _ & Hi).
Qed.

Lemma frame_ids_pairwise_distinct_witness :
  ∃ s,
    currentSession
      (run [Start 1700000000000 1700000000000;
            Capture Examples.browser_frame;
            Capture Examples.browser_frame;
            Capture Examples.browser_frame] idle) = Some s
    ∧ WalkthroughFrame.id <$> frames s =
        ["frame_1700000000000_0"; "frame_1700000000000_1"; "frame_1700000000000_2"]
    ∧ NoDup (WalkthroughFrame.id <$> frames s).
Proof.
  eexists. split; [vm_compute; reflexivity |].
  split; [vm_compute; reflexivity |].
  apply (frame_ids_pairwise_distinct
           [Start 1700000000000 1700000000000;
            Capture Examples.browser_frame;
            Capture Examples.browser_frame;
            Capture Examples.browser_frame]).
  vm_compute. reflexivity.
Defined.

(** C10: in any state of the hook, [resetSession] leaves no current
    session and [isCapturing] false, and a second [resetSession] changes
    nothing more. *)
Theorem resetSession_idempotent (st : HookState) :
  currentSession (resetSession st) = None
  ∧ isCapturing (resetSession st) = false
  ∧ resetSession (resetSession st) = resetSession st.
Proof. repeat split. Qed.

End CameraSpec.

(** The variant's [stopCaptureSession] hands back the session as it was
    before the stop: still marked active. *)
Lemma legacy_stop_returns_closure (cur : CaptureSession.t) :
  CameraLegacy.stopCaptureSession
    {| CameraLegacy.isCapturing := true; CameraLegacy.currentSession := Some cur |}
  = (Some cur,
     {| CameraLegacy.isCapturing := false;
        CameraLegacy.currentSession := Some (Camera.completedSession cur) |}).
Proof. reflexivity. Qed.

(** C4: the copy of the hook in [part_004], started and then stopped:
    [stopCaptureSession] returns the session of its closure, the one
    [startCaptureSession] made, whose [isActive] is still true; only the
    session it leaves in the state has [isActive] false.  The same two calls
    on the hook of [src/hooks/useCamera.ts] return the session with
    [isActive] false. *)
Theorem legacy_stop_returns_active_session (now_id now_start : Z) :
  let started := CameraLegacy.startCaptureSession now_id now_start CameraLegacy.idle in
  let stopped := CameraLegacy.stopCaptureSession started.2 in
  stopped.1 = Some started.1
  ∧ CaptureSession.isActive <$> stopped.1 = Some true
  ∧ CaptureSession.isActive <$> CameraLegacy.currentSession stopped.2 = Some false
  ∧ CaptureSession.isActive
      <$> (Camera.stopCaptureSession
             (Camera.startCaptureSession now_id now_start Camera.idle).2).1
    = Some false.
Proof. repeat split. Qed.

Module StorageSpec.
Import WalkthroughSession Storage.

Lemma updateSession_storedValue (written : bool) (now : Z) (i : string)
    (updates : Partial.t) (c : Sessions) :
  storedValue (updateSession written now i updates c) =
    (λ session, if decide (id session = i) then merge session updates now
                else session) <$> storedValue c.
Proof. reflexivity. Qed.

(** C7: when no stored session has the id, [updateSession] leaves the
    list as it was, element for element (so no timestamp changes), and
    what it writes to [localStorage] is that same list. *)
Theorem updateSession_unknown_id (written : bool) (now : Z) (i : string)
    (updates : Partial.t) (c : Sessions) :
  (∀ session, session ∈ storedValue c → id session ≠ i) →
  storedValue (updateSession written now i updates c) = storedValue c
  ∧ item (updateSession written now i updates c) =
      (if written then Some (storedValue c) else item c).
Proof.
  intros Hmiss.
  assert (storedValue (updateSession written now i updates c) = storedValue c) as E.
  { rewrite updateSession_storedValue.
    induction (storedValue c) as [|session l IH]; [reflexivity |].
    rewrite fmap_cons. rewrite IH.
    - destruct (decide (id session = i)) as [Heq|]; [|reflexivity].
      exfalso. apply (Hmiss session); [left | exact Heq].
    - intros s' Hs'. apply Hmiss. now right. }
  split; [exact E |].
  unfold updateSession, setValue in *. simpl in *. now rewrite E.
Qed.

Lemma updateSession_unknown_id_witness :
  (∀ session, session ∈ storedValue Examples.two_sessions →
              id session ≠ "session_1700000200000")
  ∧ storedValue
      (updateSession true 1700000300000 "session_1700000200000"
         Examples.mark_uploaded Examples.two_sessions)
    = storedValue Examples.two_sessions
  ∧ item
      (updateSession true 1700000300000 "session_1700000200000"
         Examples.mark_uploaded Examples.two_sessions)
    = Some (storedValue Examples.two_sessions).
Proof.
  assert (∀ session, session ∈ storedValue Examples.two_sessions →
                     id session ≠ "session_1700000200000") as Hmiss.
  { intros session Hin.
    apply elem_of_cons in Hin as [-> | Hin]; [discriminate |].
    apply elem_of_cons in Hin as [-> | Hin]; [discriminate |].
    inversion Hin. }
  split; [exact Hmiss |].
  apply (updateSession_unknown_id true 1700000300000 "session_1700000200000"
           Examples.mark_uploaded Examples.two_sessions Hmiss).
Defined.

(** C9, as the code has it: a stored session with the id gets
    [updatedAt] set to the clock reading of the call, whatever the partial
    fields say, and [createdAt] set to the supplied one when the partial
    fields carry it; [updatedAt] is then at least [createdAt] when that
    [createdAt] is not later than the reading, and at least the previous
    [updatedAt] when that one is not later than the reading. *)
Theorem updateSession_stamps_now (written : bool) (now : Z) (i : string)
    (updates : Partial.t) (c : Sessions) (k : nat) (session : WalkthroughSession.t) :
  storedValue c !! k = Some session →
  id session = i →
  ∃ session',
    storedValue (updateSession written now i updates c) !! k = Some session'
    ∧ updatedAt session' = now
    ∧ createdAt session' = default (createdAt session) (Partial.createdAt updates)
    ∧ (default (createdAt session) (Partial.createdAt updates) ≤ now →
       createdAt session' ≤ updatedAt session')
    ∧ (updatedAt session ≤ now → updatedAt session ≤ updatedAt session').
Proof.
  intros Hk Hid.
  exists (merge session updates now).
  rewrite updateSession_storedValue, list_lookup_fmap, Hk. simpl.
  destruct (decide (id session = i)); [|contradiction].
  repeat split; auto.
Qed.

Lemma updateSession_stamps_now_witness :
  let old := Examples.saved "session_1700000100000" 5 1700000120000 1700000120000 in
  storedValue Examples.two_sessions !! 0%nat = Some old
  ∧ id old = "session_1700000100000"
  ∧ ∃ session',
      storedValue
        (updateSession true 1700000300000 "session_1700000100000"
           Examples.mark_uploaded Examples.two_sessions) !! 0%nat = Some session'
      ∧ updatedAt session' = 1700000300000
      ∧ createdAt session' = 1700000120000
      ∧ (1700000120000 ≤ 1700000300000 → createdAt session' ≤ updatedAt session')
      ∧ (updatedAt old ≤ 1700000300000 → updatedAt old ≤ updatedAt session').
Proof.
  intros old.
  split; [reflexivity |]. split; [reflexivity |].
  apply (updateSession_stamps_now true 1700000300000 "session_1700000100000"
           Examples.mark_uploaded Examples.two_sessions 0 old); reflexivity.
Defined.

(** C9 as stated fails: the stamp is the clock reading and nothing
    compares it with the session's timestamps.  A [createdAt] passed in
    the partial fields, or an [updatedAt] already stored, may be later. *)
Lemma updateSession_stamp_below_timestamps :
  (∃ session',
     storedValue
       (updateSession true 1700000300000 "session_1700000100000"
          (Examples.set_createdAt 1700000400000) Examples.two_sessions) !! 0%nat
     = Some session'
     ∧ createdAt session' = 1700000400000
     ∧ updatedAt session' = 1700000300000
     ∧ ¬ (createdAt session' ≤ updatedAt session'))
  ∧ (∃ session',
       storedValue
         (updateSession true 1700000300000 "session_1700000500000"
            Examples.mark_uploaded
            (addSession true
               (Examples.saved "session_1700000500000" 2 1700000520000 1700000520000)
               Examples.two_sessions)) !! 0%nat
       = Some session'
       ∧ updatedAt session' = 1700000300000
       ∧ ¬ (1700000520000 ≤ updatedAt session')).
Proof.
  split; eexists; (split; [vm_compute; reflexivity |]); simpl; repeat split; lia.
Qed.

End StorageSpec.

Module ViewerSpec.
Import WalkthroughSession Viewer.

Lemma frameCount_setCurrentFrameIndex (i : Z) (st : ViewerState) :
  frameCount (setCurrentFrameIndex i st) = frameCount st.
Proof. reflexivity. Qed.

(** No interval is armed while paused. *)
Lemma tick_paused (st : ViewerState) :
  isPlaying st = false → tick st = st.
Proof. intros H. unfold tick. now rewrite H. Qed.

Lemma ticks_paused (k : nat) (st : ViewerState) :
  isPlaying st = false → ticks k st = st.
Proof.
  intros H. induction k as [|k IH]; [reflexivity |].
  unfold ticks in *. simpl. rewrite IH. now apply tick_paused.
Qed.

(** Before the last frame a tick moves one frame on. *)
Lemma tick_advance (st : ViewerState) :
  isPlaying st = true →
  currentFrameIndex st < frameCount st - 1 →
  tick st = setCurrentFrameIndex (currentFrameIndex st + 1) st.
Proof.
  intros Hp Hi. unfold tick. rewrite Hp. simpl.
  destruct (Z.leb_spec (frameCount st - 1) (currentFrameIndex st)); [lia | reflexivity].
Qed.

(** At the last frame (or past it) a tick rewinds and stops. *)
Lemma tick_rewind (st : ViewerState) :
  isPlaying st = true →
  frameCount st - 1 ≤ currentFrameIndex st →
  tick st = setCurrentFrameIndex 0 (setIsPlaying false st).
Proof.
  intros Hp Hi. unfold tick. rewrite Hp. simpl.
  destruct (Z.leb_spec (frameCount st - 1) (currentFrameIndex st)); [reflexivity | lia].
Qed.

Lemma ticks_advance (j : nat) (st : ViewerState) :
  isPlaying st = true →
  currentFrameIndex st + Z.of_nat j ≤ frameCount st - 1 →
  ticks j st = setCurrentFrameIndex (currentFrameIndex st + Z.of_nat j) st.
Proof.
  intros Hp. induction j as [|j IH]; intros Hj.
  - unfold ticks. simpl. destruct st. unfold setCurrentFrameIndex. simpl.
    f_equal. lia.
  - unfold ticks in *. simpl. rewrite IH by lia.
    rewrite tick_advance; simpl; [| exact Hp | rewrite frameCount_setCurrentFrameIndex; lia].
    unfold setCurrentFrameIndex. simpl. f_equal. lia.
Qed.

(** From frame [i] of [n], playing: after [n - i] ticks the viewer is at
    frame 0 and paused. *)
Lemma ticks_to_end (st : ViewerState) :
  isPlaying st = true →
  1 ≤ frameCount st →
  0 ≤ currentFrameIndex st ≤ frameCount st - 1 →
  ticks (Z.to_nat (frameCount st - currentFrameIndex st)) st
    = setCurrentFrameIndex 0 (setIsPlaying false st).
Proof.
  intros Hp Hn Hi.
  replace (Z.to_nat (frameCount st - currentFrameIndex st))
    with (S (Z.to_nat (frameCount st - 1 - currentFrameIndex st))) by lia.
  unfold ticks. simpl. fold (ticks (Z.to_nat (frameCount st - 1 - currentFrameIndex st)) st).
  rewrite ticks_advance by (auto; lia).
  rewrite tick_rewind; simpl; [reflexivity | exact Hp |].
  rewrite frameCount_setCurrentFrameIndex. lia.
Qed.

Lemma playback_from (st : ViewerState) :
  1 ≤ frameCount st →
  isPlaying st = true →
  0 ≤ currentFrameIndex st ≤ frameCount st - 1 →
  (currentFrameIndex st < frameCount st - 1 →
     currentFrameIndex (tick st) = currentFrameIndex st + 1
     ∧ isPlaying (tick st) = true)
  ∧ (currentFrameIndex st = frameCount st - 1 →
     currentFrameIndex (tick st) = 0 ∧ isPlaying (tick st) = false)
  ∧ (∀ k : nat,
       (Z.to_nat (frameCount st - currentFrameIndex st) ≤ k)%nat →
       currentFrameIndex (ticks k st) = 0 ∧ isPlaying (ticks k st) = false).
Proof.
  intros Hn Hp Hi. split; [| split].
  - intros Hlt. now rewrite tick_advance.
  - intros Hlast. rewrite tick_rewind by (auto; lia). auto.
  - intros k Hk.
    replace k with ((k - Z.to_nat (frameCount st - currentFrameIndex st))
                    + Z.to_nat (frameCount st - currentFrameIndex st))%nat by lia.
    unfold ticks. rewrite Nat.iter_add.
    fold (ticks (Z.to_nat (frameCount st - currentFrameIndex st)) st).
    rewrite ticks_to_end by auto.
    match goal with |- context [Nat.iter ?j tick ?x] => fold (ticks j x) end.
    rewrite ticks_paused by reflexivity. auto.
Qed.

(** No action changes the walkthrough on display. *)
Lemma perform_session (st : ViewerState) (a : Action) :
  session (perform st a) = session st.
Proof.
  destruct a; simpl; try reflexivity.
  - unfold goToNextFrame. now destruct (_ <? _).
  - unfold goToPrevFrame. now destruct (_ <? _).
  - unfold tick. destruct (negb _); [reflexivity |]. now destruct (_ <=? _).
Qed.

Lemma perform_frameCount (st : ViewerState) (a : Action) :
  frameCount (perform st a) = frameCount st.
Proof. unfold frameCount. now rewrite perform_session. Qed.

(** Every action keeps the index on a frame. *)
Lemma perform_in_range (st : ViewerState) (a : Action) :
  1 ≤ frameCount st →
  0 ≤ currentFrameIndex st ≤ frameCount st - 1 →
  0 ≤ currentFrameIndex (perform st a) ≤ frameCount st - 1.
Proof.
  intros Hn Hi. destruct a; simpl; try lia.
  - unfold goToNextFrame.
    destruct (Z.ltb_spec (currentFrameIndex st) (frameCount st - 1)); simpl; lia.
  - unfold goToPrevFrame.
    destruct (Z.ltb_spec 0 (currentFrameIndex st)); simpl; lia.
  - unfold tick. destruct (negb _); [lia |].
    destruct (Z.leb_spec (frameCount st - 1) (currentFrameIndex st)); simpl; lia.
Qed.

Lemma after_snoc (acts : list Action) (a : Action) (s : WalkthroughSession.t) :
  after (acts ++ [a]) s = perform (after acts s) a.
Proof. unfold after. now rewrite foldl_app. Qed.

Lemma after_in_range (acts : list Action) (s : WalkthroughSession.t) :
  frames s ≠ [] →
  frameCount (after acts s) = Z.of_nat (length (frames s))
  ∧ 1 ≤ frameCount (after acts s)
  ∧ 0 ≤ currentFrameIndex (after acts s) ≤ frameCount (after acts s) - 1.
Proof.
  intros Hs.
  assert (1 ≤ Z.of_nat (length (frames s))) as Hlen.
  { destruct (frames s); [contradiction | simpl; lia]. }
  induction acts as [|a acts IH] using rev_ind.
  - unfold after, frameCount. simpl. lia.
  - destruct IH as (Hc & Hn & Hi).
    rewrite after_snoc, perform_frameCount.
    repeat split; try lia; now apply perform_in_range.
Qed.

(** C3: for a loaded walkthrough with at least one frame, in any state the
    viewer can be in with playback on, a tick before the last frame moves
    one frame on and keeps playing; the tick at the last frame puts the
    viewer at frame 0 with playback off; and from then on no tick changes
    anything, however many periods pass. *)
Theorem playback_stops_at_end (s : WalkthroughSession.t) (acts : list Action) :
  frames s ≠ [] →
  isPlaying (after acts s) = true →
  let st := after acts s in
  let last := Z.of_nat (length (frames s)) - 1 in
  0 ≤ currentFrameIndex st ≤ last
  ∧ (currentFrameIndex st < last →
       currentFrameIndex (tick st) = currentFrameIndex st + 1
       ∧ isPlaying (tick st) = true)
  ∧ (currentFrameIndex st = last →
       currentFrameIndex (tick st) = 0 ∧ isPlaying (tick st) = false)
  ∧ (∀ k : nat,
       (Z.to_nat (last + 1 - currentFrameIndex st) ≤ k)%nat →
       currentFrameIndex (ticks k st) = 0 ∧ isPlaying (ticks k st) = false).
Proof.
  intros Hs Hp st last.
  destruct (after_in_range acts s Hs) as (Hc & Hn & Hi).
  fold st in Hc, Hn, Hi, Hp.
  destruct (playback_from st Hn Hp Hi) as (Hadv & Hend & Hstop).
  subst last. rewrite <- Hc.
  split; [exact Hi |].
  split; [exact Hadv |].
  split; [exact Hend |].
  intros k Hk. apply Hstop. lia.
Qed.

Lemma playback_stops_at_end_witness :
  let s := Examples.saved "session_1700000000000" 5 1700000020000 1700000020000 in
  let st := after [Next; Toggle] s in
  frames s ≠ []
  ∧ isPlaying st = true
  ∧ 0 ≤ currentFrameIndex st ≤ 4
  ∧ (currentFrameIndex st < 4 →
       currentFrameIndex (tick st) = currentFrameIndex st + 1
       ∧ isPlaying (tick st) = true)
  ∧ (currentFrameIndex st = 4 →
       currentFrameIndex (tick st) = 0 ∧ isPlaying (tick st) = false)
  ∧ (∀ k : nat,
       (4 ≤ k)%nat →
       currentFrameIndex (ticks k st) = 0 ∧ isPlaying (ticks k st) = false).
Proof.
  intros s st.
  split; [discriminate |].
  split; [reflexivity |].
  apply (playback_stops_at_end s [Next; Toggle]); [discriminate | reflexivity].
Defined.

(** The guard of [progress] lets a zero divisor through exactly for a
    walkthrough of one frame. *)
Lemma progress_no_frames (st : ViewerState) :
  frameCount st = 0 → progress st = Finite 0.
Proof. intros H. unfold progress. now rewrite H. Qed.

Lemma progress_finite (st : ViewerState) :
  2 ≤ frameCount st →
  progress st =
    Finite (inject_Z (currentFrameIndex st) / inject_Z (frameCount st - 1)
            * inject_Z 100).
Proof.
  intros H. unfold progress, js_div.
  destruct (Z.ltb_spec 0 (frameCount st)); [| lia].
  destruct (Z.eqb_spec (frameCount st - 1) 0); [lia | reflexivity].
Qed.

Lemma progress_one_frame (st : ViewerState) :
  frameCount st = 1 → currentFrameIndex st = 0 → progress st = NaN.
Proof. intros H Hi. unfold progress, js_div. now rewrite H, Hi. Qed.

(** C5: a walkthrough of one frame, just loaded: the guard
    [frames.length > 0] passes, the divisor [frames.length - 1] is zero,
    and [progress] is [0 / 0], NaN.  With no frame at all [progress] is 0
    and the navigation callbacks do nothing, but the "next" button is not
    disabled. *)
Theorem progress_single_frame_is_NaN :
  frameCount (Examples.viewing 1) - 1 = 0
  ∧ progress (Examples.viewing 1) = NaN
  ∧ progress (Examples.viewing 0) = Finite 0
  ∧ goToNextFrame (Examples.viewing 0) = Examples.viewing 0
  ∧ goToPrevFrame (Examples.viewing 0) = Examples.viewing 0
  ∧ prevDisabled (Examples.viewing 0) = true
  ∧ nextDisabled (Examples.viewing 0) = false.
Proof. repeat split. Qed.

End ViewerSpec.

(** * Further properties of the hook, the store, the viewer and the pages *)

Module CameraFacts.
Import CaptureSession Camera CameraTrace.

Lemma successes_snoc (cs : list Call) (c : Call) :
  successes_since_start (cs ++ [c]) = success_step (successes_since_start cs) c.
Proof. unfold successes_since_start. now rewrite foldl_app. Qed.

Lemma run_last (cs : list Call) (c : Call) (st : HookState) :
  run (cs ++ [c]) st = step (run cs st) c.
Proof. unfold run. now rewrite foldl_app. Qed.

(** X1: while the hook holds no session (nothing started yet, or a reset
    since), [captureFrame] returns null and changes nothing, whatever the
    camera would have delivered. *)
Theorem captureFrame_without_session (cs : list Call) (w : World) :
  started cs = false →
  captureFrame w (run cs idle) = (None, run cs idle).
Proof.
  intros Hst. unfold captureFrame.
  destruct (currentSession (run cs idle)) as [cur|] eqn:Hcur; [| reflexivity].
  assert (started cs = true) by (apply CameraSpec.started_currentSession; eauto).
  congruence.
Qed.

Lemma captureFrame_without_session_witness :
  started [Start 1699999999000 1699999999000; Capture Examples.browser_frame; Reset] = false
  ∧ captureFrame Examples.device_frame
      (run [Start 1699999999000 1699999999000; Capture Examples.browser_frame; Reset] idle)
    = (None,
       run [Start 1699999999000 1699999999000; Capture Examples.browser_frame; Reset] idle).
Proof.
  split; [reflexivity |].
  apply (captureFrame_without_session
           [Start 1699999999000 1699999999000; Capture Examples.browser_frame; Reset]
           Examples.device_frame).
  reflexivity.
Defined.

(** X2: the session the hook holds has exactly as many frames as there were
    captures that acquired an image since it was started: a failed capture
    and a stop add none, and a new start begins again from none. *)
Theorem frames_count_successes (cs : list Call) (s : CaptureSession.t) :
  currentSession (run cs idle) = Some s →
  length (frames s) = successes_since_start cs.
Proof.
  revert s. induction cs as [|c cs IH] using rev_ind; intros s Hs.
  - discriminate.
  - rewrite run_last in Hs. rewrite successes_snoc.
    destruct c as [t1 t2 | w | | ]; simpl in *.
    + injection Hs as <-. reflexivity.
    + unfold captureFrame, succeeds in *.
      destruct (currentSession (run cs idle)) as [cur|] eqn:Hcur.
      * destruct (acquire w) as [data|]; simpl in Hs.
        -- injection Hs as <-. simpl. rewrite length_app. simpl.
           rewrite (IH cur eq_refl). lia.
        -- rewrite Hcur in Hs. injection Hs as <-. now apply IH.
      * simpl in Hs. congruence.
    + unfold stopCaptureSession in Hs.
      destruct (currentSession (run cs idle)) as [cur|] eqn:Hcur; simpl in Hs.
      * injection Hs as <-. simpl. now apply IH.
      * discriminate.
    + discriminate.
Qed.

Lemma frames_count_successes_witness :
  ∃ s,
    currentSession
      (run [Capture Examples.browser_frame;
            Start 1699999999000 1699999999000;
            Capture Examples.device_frame;
            Capture Examples.camera_denied;
            Stop;
            Capture Examples.browser_frame] idle) = Some s
    ∧ length (frames s) = 2%nat.
Proof.
  eexists. split; [vm_compute; reflexivity |].
  apply (frames_count_successes
           [Capture Examples.browser_frame;
            Start 1699999999000 1699999999000;
            Capture Examples.device_frame;
            Capture Examples.camera_denied;
            Stop;
            Capture Examples.browser_frame]).
  vm_compute. reflexivity.
Defined.

(** X3: after any calls, [isCapturing] is true exactly when the hook holds
    a session whose [isActive] is true. *)
Theorem isCapturing_is_session_active (cs : list Call) :
  isCapturing (run cs idle) = session_active (run cs idle).
Proof.
  induction cs as [|c cs IH] using rev_ind; [reflexivity |].
  rewrite run_last. unfold session_active in *.
  destruct c as [t1 t2 | w | | ]; simpl.
  - reflexivity.
  - unfold captureFrame.
    destruct (currentSession (run cs idle)) as [cur|] eqn:Hcur.
    + destruct (acquire w); simpl; [exact IH | now rewrite Hcur].
    + simpl. now rewrite Hcur.
  - unfold stopCaptureSession.
    destruct (currentSession (run cs idle)); reflexivity.
  - reflexivity.
Qed.

(** X4: [captureFrame] does not look at [isActive]: on a stopped session a
    capture that acquires an image still adds its frame and counts a step,
    and the session stays inactive. *)
Theorem captureFrame_after_stop (w : World) (st : HookState) (cur : CaptureSession.t) :
  currentSession st = Some cur →
  succeeds w = true →
  ∃ f s,
    captureFrame w (stopCaptureSession st).2 =
      (Some f, {| isCapturing := false;
                  currentSession := Some s;
                  localStorage := localStorage (stopCaptureSession st).2 |})
    ∧ frames s = (frames cur ++ [f])%list
    ∧ currentStep s = currentStep cur + 1
    ∧ isActive s = false.
Proof.
  intros Hcur Hw.
  rewrite (CameraSpec.stopCaptureSession_Some st cur Hcur). simpl.
  destruct (CameraSpec.captureFrame_success w
              {| isCapturing := false;
                 currentSession := Some (completedSession cur);
                 localStorage := <["session_" +:+ id cur := frames cur]> (localStorage st) |}
              (completedSession cur) eq_refl Hw) as (data & _ & Hcall).
  rewrite Hcall. simpl.
  exists (frame (completedSession cur) w data), (updatedSession (completedSession cur) w data).
  repeat split.
Qed.

Lemma captureFrame_after_stop_witness :
  let st := run [Start 1699999999000 1699999999000; Capture Examples.device_frame] idle in
  let cur := updatedSession (startCaptureSession 1699999999000 1699999999000 idle).1
               Examples.device_frame "data:image/jpeg;base64,/9j/4AAQ" in
  currentSession st = Some cur
  ∧ succeeds Examples.browser_frame = true
  ∧ ∃ f s,
      captureFrame Examples.browser_frame (stopCaptureSession st).2 =
        (Some f, {| isCapturing := false;
                    currentSession := Some s;
                    localStorage := localStorage (stopCaptureSession st).2 |})
      ∧ frames s = (frames cur ++ [f])%list
      ∧ currentStep s = currentStep cur + 1
      ∧ isActive s = false.
Proof.
  intros st cur.
  split; [reflexivity |]. split; [reflexivity |].
  apply (captureFrame_after_stop Examples.browser_frame st cur); reflexivity.
Defined.

(** X5: stopping twice is stopping once: the second [stopCaptureSession]
    returns the same session and leaves the same state, temporary storage
    included. *)
Theorem stopCaptureSession_idempotent (st : HookState) :
  stopCaptureSession (stopCaptureSession st).2 = stopCaptureSession st.
Proof.
  destruct (currentSession st) as [cur|] eqn:Hcur.
  - rewrite (CameraSpec.stopCaptureSession_Some st cur Hcur). simpl.
    unfold stopCaptureSession. simpl.
    now rewrite insert_insert_eq.
  - rewrite (CameraSpec.stopCaptureSession_None st Hcur). reflexivity.
Qed.

Lemma step_keeps_keys (st : HookState) (c : Call) (k : string) :
  is_Some (localStorage st !! k) → is_Some (localStorage (step st c) !! k).
Proof.
  intros Hk. destruct c as [t1 t2 | w | | ]; simpl; auto.
  - unfold captureFrame. destruct (currentSession st); [| exact Hk].
    destruct (acquire w); exact Hk.
  - unfold stopCaptureSession. destruct (currentSession st) as [cur|]; simpl; auto.
    destruct (decide ("session_" +:+ id cur = k)) as [<- | Hne].
    + rewrite lookup_insert_eq. eauto.
    + now rewrite lookup_insert_ne.
Qed.

Lemma run_keeps_keys (cs : list Call) (st : HookState) (k : string) :
  is_Some (localStorage st !! k) → is_Some (localStorage (run cs st) !! k).
Proof.
  revert st. induction cs as [|c cs IH]; intros st Hk; [exact Hk |].
  rewrite CameraSpec.run_cons. apply IH. now apply step_keeps_keys.
Qed.

(** X6: [stopCaptureSession] files the session's frames in [localStorage]
    under [session_] followed by the session id and touches no other key;
    [resetSession] does not take them out again, and no later call of the
    hook ever removes the key. *)
Theorem stop_files_frames (st : HookState) (cur : CaptureSession.t) :
  currentSession st = Some cur →
  localStorage (stopCaptureSession st).2 !! ("session_" +:+ id cur) = Some (frames cur)
  ∧ localStorage (resetSession (stopCaptureSession st).2) !! ("session_" +:+ id cur)
    = Some (frames cur)
  ∧ (∀ k, k ≠ "session_" +:+ id cur →
          localStorage (stopCaptureSession st).2 !! k = localStorage st !! k)
  ∧ (∀ cs, is_Some (localStorage (run cs (stopCaptureSession st).2)
                      !! ("session_" +:+ id cur))).
Proof.
  intros Hcur. rewrite (CameraSpec.stopCaptureSession_Some st cur Hcur). simpl.
  repeat split.
  - apply lookup_insert_eq.
  - apply lookup_insert_eq.
  - intros k Hk. now apply lookup_insert_ne.
  - intros cs. apply run_keeps_keys. simpl. rewrite lookup_insert_eq. eauto.
Qed.

Lemma stop_files_frames_witness :
  let st := run [Start 1699999999000 1699999999000; Capture Examples.device_frame] idle in
  let cur := updatedSession (startCaptureSession 1699999999000 1699999999000 idle).1
               Examples.device_frame "data:image/jpeg;base64,/9j/4AAQ" in
  currentSession st = Some cur
  ∧ localStorage (stopCaptureSession st).2 !! "session_session_1699999999000"
    = Some (frames cur)
  ∧ localStorage (resetSession (stopCaptureSession st).2) !! "session_session_1699999999000"
    = Some (frames cur)
  ∧ (∀ k, k ≠ "session_session_1699999999000" →
          localStorage (stopCaptureSession st).2 !! k = localStorage st !! k)
  ∧ (∀ cs, is_Some (localStorage (run cs (stopCaptureSession st).2)
                      !! "session_session_1699999999000")).
Proof.
  intros st cur.
  split; [reflexivity |].
  apply (stop_files_frames st cur). reflexivity.
Defined.

(** X7: captures and stops only ever add frames at the end: the frames a
    session had stay where they were, in order, and its id, start time and
    [totalSteps] do not change. *)
Theorem frames_append_only (cs : list Call) (st : HookState) (cur : CaptureSession.t) :
  forallb keeps_session cs = true →
  currentSession st = Some cur →
  ∃ s,
    currentSession (run cs st) = Some s
    ∧ frames cur `prefix_of` frames s
    ∧ id s = id cur
    ∧ startTime s = startTime cur
    ∧ totalSteps s = totalSteps cur.
Proof.
  revert st cur. induction cs as [|c cs IH]; intros st cur Hcs Hcur.
  - exists cur. simpl. repeat split; auto.
  - simpl in Hcs. apply andb_true_iff in Hcs as [Hc Hcs].
    rewrite CameraSpec.run_cons.
    assert (∃ cur', currentSession (step st c) = Some cur'
                    ∧ frames cur `prefix_of` frames cur'
                    ∧ id cur' = id cur ∧ startTime cur' = startTime cur
                    ∧ totalSteps cur' = totalSteps cur) as (cur' & Hcur' & Hp & Hi & Ht & Hn).
    { destruct c as [t1 t2 | w | | ]; try discriminate; simpl.
      - unfold captureFrame. rewrite Hcur.
        destruct (acquire w) as [data|]; simpl.
        + eexists. split; [reflexivity |]. simpl.
          repeat split. now apply prefix_app_r.
        + exists cur. repeat split; auto.
      - rewrite (CameraSpec.stopCaptureSession_Some st cur Hcur). simpl.
        eexists. split; [reflexivity |]. simpl. repeat split; auto. }
    destruct (IH (step st c) cur' Hcs Hcur') as (s & Hs & Hps & His & Hts & Hns).
    exists s. repeat split; try congruence.
    now transitivity (frames cur').
Qed.

Lemma frames_append_only_witness :
  let st := run [Start 1699999999000 1699999999000; Capture Examples.device_frame] idle in
  let cur := updatedSession (startCaptureSession 1699999999000 1699999999000 idle).1
               Examples.device_frame "data:image/jpeg;base64,/9j/4AAQ" in
  let cs := [Capture Examples.camera_denied; Stop; Capture Examples.browser_frame] in
  forallb keeps_session cs = true
  ∧ currentSession st = Some cur
  ∧ ∃ s,
      currentSession (run cs st) = Some s
      ∧ frames cur `prefix_of` frames s
      ∧ id s = id cur
      ∧ startTime s = startTime cur
      ∧ totalSteps s = totalSteps cur.
Proof.
  intros st cur cs.
  split; [reflexivity |]. split; [reflexivity |].
  apply (frames_append_only cs st cur); reflexivity.
Defined.

(** X8: the ids are faithful to what they are made from: two session ids
    agree only for the same clock reading, two frame ids only for the same
    clock reading and the same frame count. *)
Theorem ids_determine_their_parts (now now' : Z) (n n' : nat) :
  (session_id now = session_id now' ↔ now = now')
  ∧ (frame_id now n = frame_id now' n' ↔ now = now' ∧ n = n').
Proof.
  split; split.
  - unfold session_id. simpl. intros E. injection E as E.
    now apply string_of_number_inj.
  - now intros ->.
  - apply CameraSpec.frame_id_inj.
  - now intros [-> ->].
Qed.

End CameraFacts.

Module StorageFacts.
Import WalkthroughSession Storage.

(** [getSession] looks at the list only, from the front. *)
Lemma getSession_nil (i : string) (it : option (list WalkthroughSession.t)) :
  getSession i {| storedValue := []; item := it |} = None.
Proof. reflexivity. Qed.

Lemma getSession_cons (i : string) (s : WalkthroughSession.t)
    (l : list WalkthroughSession.t) (it it' : option (list WalkthroughSession.t)) :
  getSession i {| storedValue := s :: l; item := it |} =
    if decide (id s = i) then Some s
    else getSession i {| storedValue := l; item := it' |}.
Proof.
  unfold getSession. simpl.
  destruct (decide (id s = i)); [reflexivity |].
  destruct (list_find _ l) as [[k x]|]; reflexivity.
Qed.

Lemma getSession_item (i : string) (c : Sessions) (it : option (list WalkthroughSession.t)) :
  getSession i c = getSession i {| storedValue := storedValue c; item := it |}.
Proof. reflexivity. Qed.

(** X9: a session [getSession] returns is stored, has the id asked for, and
    is the first such session of the list. *)
Theorem getSession_first_match (i : string) (c : Sessions) (s : WalkthroughSession.t) :
  getSession i c = Some s →
  ∃ k, storedValue c !! k = Some s
       ∧ id s = i
       ∧ ∀ j s', storedValue c !! j = Some s' → (j < k)%nat → id s' ≠ i.
Proof.
  unfold getSession. intros Hs.
  destruct (list_find _ (storedValue c)) as [[k x]|] eqn:Hf; simpl in Hs; [| discriminate].
  injection Hs as ->. apply list_find_Some in Hf as (Hk & Hid & Hfirst).
  exists k. repeat split; auto.
Qed.

Lemma getSession_first_match_witness :
  let s := Examples.saved "session_1700000000000" 1 1700000020000 1700000020000 in
  getSession "session_1700000000000" Examples.two_sessions = Some s
  ∧ ∃ k, storedValue Examples.two_sessions !! k = Some s
         ∧ id s = "session_1700000000000"
         ∧ ∀ j s', storedValue Examples.two_sessions !! j = Some s' → (j < k)%nat →
                   id s' ≠ "session_1700000000000".
Proof.
  intros s. split; [reflexivity |].
  apply (getSession_first_match "session_1700000000000" Examples.two_sessions s).
  reflexivity.
Defined.

(** X10: [getSession] finds nothing exactly when no stored session has the
    id. *)
Theorem getSession_not_found (i : string) (c : Sessions) :
  getSession i c = None ↔ ∀ s, s ∈ storedValue c → id s ≠ i.
Proof.
  unfold getSession.
  destruct (list_find _ (storedValue c)) as [[k x]|] eqn:Hf; simpl.
  - apply list_find_Some in Hf as (Hk & Hid & _).
    split; [discriminate |]. intros Hno. exfalso.
    apply (Hno x); [| exact Hid]. apply list_elem_of_lookup. eauto.
  - apply list_find_None in Hf. split; [| reflexivity].
    intros _ s Hs. rewrite Forall_forall in Hf. now apply Hf.
Qed.

(** X11: [addSession] puts the session at the front, ahead of the list as
    it was; looking its id up then returns it, even when an older session
    has the same id, and other ids are found as before. *)
Theorem addSession_then_getSession (written : bool) (s : WalkthroughSession.t) (c : Sessions) :
  storedValue (addSession written s c) = s :: storedValue c
  ∧ getSession (id s) (addSession written s c) = Some s
  ∧ (∀ j, j ≠ id s → getSession j (addSession written s c) = getSession j c).
Proof.
  split; [reflexivity |].
  unfold addSession, setValue. simpl. split.
  - rewrite (getSession_cons _ _ _ _ None). now destruct (decide (id s = id s)).
  - intros j Hj. rewrite (getSession_cons _ _ _ _ None).
    destruct (decide (id s = j)); [congruence | reflexivity].
Qed.

Lemma addSession_then_getSession_witness :
  let s := Examples.saved "session_1700000200000" 3 1700000220000 1700000220000 in
  storedValue (addSession true s Examples.two_sessions)
    = s :: storedValue Examples.two_sessions
  ∧ getSession (id s) (addSession true s Examples.two_sessions) = Some s
  ∧ "session_1700000000000" ≠ id s
  ∧ getSession "session_1700000000000" (addSession true s Examples.two_sessions)
    = getSession "session_1700000000000" Examples.two_sessions.
Proof.
  intros s.
  destruct (addSession_then_getSession true s Examples.two_sessions) as (H1 & H2 & H3).
  split; [exact H1 |]. split; [exact H2 |]. split; [discriminate |].
  apply H3. discriminate.
Defined.

Lemma deleteSession_storedValue (written : bool) (i : string) (c : Sessions) :
  storedValue (deleteSession written i c) =
    filter (λ session, id session ≠ i) (storedValue c).
Proof. reflexivity. Qed.

Lemma getSession_filter (i j : string) (l : list WalkthroughSession.t) :
  getSession j {| storedValue := filter (λ session, id session ≠ i) l; item := None |} =
    if decide (j = i) then None
    else getSession j {| storedValue := l; item := None |}.
Proof.
  induction l as [|s l IH].
  - simpl. now destruct (decide (j = i)).
  - rewrite filter_cons. destruct (decide (id s ≠ i)) as [Hne | Heq].
    + rewrite !(getSession_cons _ _ _ _ None), IH.
      destruct (decide (id s = j)) as [<- | ?]; [| reflexivity].
      destruct (decide (id s = i)); [contradiction | reflexivity].
    + apply dec_stable in Heq. rewrite IH.
      rewrite (getSession_cons j s l None None).
      destruct (decide (j = i)) as [-> | Hji]; [reflexivity |].
      destruct (decide (id s = j)); [congruence | reflexivity].
Qed.

(** A sublist that avoids the id survives the filter. *)
Lemma sublist_into_filter (i : string) (l k : list WalkthroughSession.t) :
  k `sublist_of` l →
  Forall (λ s, id s ≠ i) k →
  k `sublist_of` filter (λ session, id session ≠ i) l.
Proof.
  induction 1 as [| x k l Hkl IH | x k l Hkl IH]; intros Hk.
  - apply sublist_nil.
  - apply Forall_cons in Hk as [Hx Hk]. rewrite filter_cons.
    destruct (decide (id x ≠ i)); [| contradiction].
    apply sublist_skip. now apply IH.
  - rewrite filter_cons. destruct (decide (id x ≠ i)).
    + apply sublist_cons. now apply IH.
    + now apply IH.
Qed.

(** X12: [deleteSession] removes every session with the id and nothing
    else: the sessions left are those with another id, in the order they
    had, and they are all of them, copies included: every part of the old
    list that has no session with the id is still there, in order.  The id
    is no longer found, and every other id is found as before. *)
Theorem deleteSession_removes_exactly (written : bool) (i : string) (c : Sessions) :
  storedValue (deleteSession written i c) `sublist_of` storedValue c
  ∧ (∀ s, s ∈ storedValue (deleteSession written i c) ↔ id s ≠ i ∧ s ∈ storedValue c)
  ∧ (∀ k, k `sublist_of` storedValue c → Forall (λ s, id s ≠ i) k →
          k `sublist_of` storedValue (deleteSession written i c))
  ∧ getSession i (deleteSession written i c) = None
  ∧ (∀ j, j ≠ i → getSession j (deleteSession written i c) = getSession j c).
Proof.
  split; [| split; [| split; [| split]]].
  - rewrite deleteSession_storedValue. apply sublist_filter.
  - intros s. rewrite deleteSession_storedValue. now rewrite list_elem_of_filter.
  - intros k Hk Hall. rewrite deleteSession_storedValue.
    now apply sublist_into_filter.
  - rewrite (getSession_item _ _ None), deleteSession_storedValue.
    rewrite getSession_filter. now destruct (decide (i = i)).
  - intros j Hj. rewrite (getSession_item _ _ None), deleteSession_storedValue.
    rewrite getSession_filter, <- (getSession_item j c None).
    destruct (decide (j = i)); [contradiction | reflexivity].
Qed.

Lemma deleteSession_removes_exactly_witness :
  let kept := Examples.saved "session_1700000000000" 1 1700000020000 1700000020000 in
  storedValue (deleteSession true "session_1700000100000" Examples.two_sessions)
    `sublist_of` storedValue Examples.two_sessions
  ∧ (kept ∈ storedValue (deleteSession true "session_1700000100000" Examples.two_sessions)
     ↔ id kept ≠ "session_1700000100000" ∧ kept ∈ storedValue Examples.two_sessions)
  ∧ ([kept] `sublist_of` storedValue Examples.two_sessions
     ∧ Forall (λ s, id s ≠ "session_1700000100000") [kept]
     ∧ [kept] `sublist_of`
         storedValue (deleteSession true "session_1700000100000" Examples.two_sessions))
  ∧ getSession "session_1700000100000"
      (deleteSession true "session_1700000100000" Examples.two_sessions) = None
  ∧ "session_1700000000000" ≠ "session_1700000100000"
  ∧ getSession "session_1700000000000"
      (deleteSession true "session_1700000100000" Examples.two_sessions)
    = getSession "session_1700000000000" Examples.two_sessions.
Proof.
  intros kept.
  destruct (deleteSession_removes_exactly true "session_1700000100000"
              Examples.two_sessions) as (H1 & H2 & H3 & H4 & H5).
  assert ([kept] `sublist_of` storedValue Examples.two_sessions) as Hsub.
  { apply sublist_cons. apply sublist_skip. apply sublist_nil. }
  assert (Forall (λ s, id s ≠ "session_1700000100000") [kept]) as Hall.
  { apply Forall_cons. split; [discriminate | apply Forall_nil_2]. }
  split; [exact H1 |]. split; [exact (H2 kept) |].
  split; [split; [exact Hsub | split; [exact Hall | exact (H3 [kept] Hsub Hall)]] |].
  split; [exact H4 |].
  split; [discriminate |]. apply H5. discriminate.
Defined.

Lemma filter_other_ids (i : string) (l : list WalkthroughSession.t) :
  (∀ s, s ∈ l → id s ≠ i) → filter (λ session, id session ≠ i) l = l.
Proof.
  induction l as [|s l IH]; intros Hl; [reflexivity |].
  rewrite filter_cons. destruct (decide (id s ≠ i)) as [_ | Hn].
  - f_equal. apply IH. intros s' Hs'. apply Hl. now right.
  - exfalso. apply Hn, Hl. now left.
Qed.

(** X13: deleting an id no stored session has leaves the list as it was. *)
Theorem deleteSession_unknown_id (written : bool) (i : string) (c : Sessions) :
  (∀ s, s ∈ storedValue c → id s ≠ i) →
  storedValue (deleteSession written i c) = storedValue c.
Proof.
  intros Hmiss. rewrite deleteSession_storedValue. now apply filter_other_ids.
Qed.

Lemma deleteSession_unknown_id_witness :
  (∀ s, s ∈ storedValue Examples.two_sessions → id s ≠ "session_1700000200000")
  ∧ storedValue (deleteSession true "session_1700000200000" Examples.two_sessions)
    = storedValue Examples.two_sessions.
Proof.
  assert (∀ s, s ∈ storedValue Examples.two_sessions →
               id s ≠ "session_1700000200000") as Hmiss.
  { intros s Hin.
    apply elem_of_cons in Hin as [-> | Hin]; [discriminate |].
    apply elem_of_cons in Hin as [-> | Hin]; [discriminate |].
    inversion Hin. }
  split; [exact Hmiss |].
  apply (deleteSession_unknown_id true "session_1700000200000" Examples.two_sessions Hmiss).
Defined.

(** X14: a second [deleteSession] of the same id changes nothing more. *)
Theorem deleteSession_idempotent (written written' : bool) (i : string) (c : Sessions) :
  storedValue (deleteSession written' i (deleteSession written i c))
  = storedValue (deleteSession written i c).
Proof.
  rewrite (deleteSession_storedValue written'). apply filter_other_ids.
  intros s Hs. rewrite deleteSession_storedValue in Hs.
  now apply list_elem_of_filter in Hs as [? _].
Qed.

(** X15: adding a session under an id the store does not have and then
    deleting that id gives back the list as it was. *)
Theorem add_then_delete (written written' : bool) (s : WalkthroughSession.t) (c : Sessions) :
  (∀ s', s' ∈ storedValue c → id s' ≠ id s) →
  storedValue (deleteSession written' (id s) (addSession written s c)) = storedValue c.
Proof.
  intros Hfresh. rewrite deleteSession_storedValue.
  change (storedValue (addSession written s c)) with (s :: storedValue c).
  rewrite filter_cons. destruct (decide (id s ≠ id s)) as [Hn | _]; [contradiction |].
  now apply filter_other_ids.
Qed.

Lemma add_then_delete_witness :
  let s := Examples.saved "session_1700000200000" 3 1700000220000 1700000220000 in
  (∀ s', s' ∈ storedValue Examples.two_sessions → id s' ≠ id s)
  ∧ storedValue (deleteSession true (id s) (addSession true s Examples.two_sessions))
    = storedValue Examples.two_sessions.
Proof.
  intros s.
  assert (∀ s', s' ∈ storedValue Examples.two_sessions → id s' ≠ id s) as Hfresh.
  { intros s' Hin.
    apply elem_of_cons in Hin as [-> | Hin]; [discriminate |].
    apply elem_of_cons in Hin as [-> | Hin]; [discriminate |].
    inversion Hin. }
  split; [exact Hfresh |].
  apply (add_then_delete true true s Examples.two_sessions Hfresh).
Defined.

(** X16: after [updateSession] with partial fields that carry no id, the
    id is found again and what is found is the session found before with the
    fields merged in and the new [updatedAt]. *)
Theorem updateSession_then_getSession (written : bool) (now : Z) (i : string)
    (updates : Partial.t) (c : Sessions) (s : WalkthroughSession.t) :
  Partial.id updates = None →
  getSession i c = Some s →
  getSession i (updateSession written now i updates c) = Some (merge s updates now).
Proof.
  intros Hu. rewrite (getSession_item i c None).
  rewrite (getSession_item i (updateSession written now i updates c) None).
  rewrite StorageSpec.updateSession_storedValue.
  induction (storedValue c) as [|s0 l IH]; [discriminate |].
  rewrite fmap_cons, !(getSession_cons _ _ _ _ None).
  destruct (decide (id s0 = i)) as [Heq | Hne].
  - intros [= <-]. unfold merge at 1. simpl. rewrite Hu. simpl.
    now destruct (decide (id s0 = i)).
  - destruct (decide (id s0 = i)); [contradiction | exact IH].
Qed.

Lemma updateSession_then_getSession_witness :
  let s := Examples.saved "session_1700000000000" 1 1700000020000 1700000020000 in
  Partial.id Examples.mark_uploaded = None
  ∧ getSession "session_1700000000000" Examples.two_sessions = Some s
  ∧ getSession "session_1700000000000"
      (updateSession true 1700000300000 "session_1700000000000"
         Examples.mark_uploaded Examples.two_sessions)
    = Some (merge s Examples.mark_uploaded 1700000300000).
Proof.
  intros s. split; [reflexivity |]. split; [reflexivity |].
  apply (updateSession_then_getSession true 1700000300000 "session_1700000000000"
           Examples.mark_uploaded Examples.two_sessions s); reflexivity.
Defined.

(** X17: [updateSession] keeps the list's length and leaves every session
    with another id where it was, unchanged. *)
Theorem updateSession_keeps_others (written : bool) (now : Z) (i : string)
    (updates : Partial.t) (c : Sessions) (k : nat) (s : WalkthroughSession.t) :
  storedValue c !! k = Some s →
  id s ≠ i →
  storedValue (updateSession written now i updates c) !! k = Some s
  ∧ length (storedValue (updateSession written now i updates c))
    = length (storedValue c).
Proof.
  intros Hk Hid. rewrite StorageSpec.updateSession_storedValue.
  rewrite list_lookup_fmap, Hk, length_fmap. simpl.
  destruct (decide (id s = i)); [contradiction | auto].
Qed.

Lemma updateSession_keeps_others_witness :
  let s := Examples.saved "session_1700000000000" 1 1700000020000 1700000020000 in
  storedValue Examples.two_sessions !! 1%nat = Some s
  ∧ id s ≠ "session_1700000100000"
  ∧ storedValue
      (updateSession true 1700000300000 "session_1700000100000"
         Examples.mark_uploaded Examples.two_sessions) !! 1%nat = Some s
  ∧ length (storedValue
              (updateSession true 1700000300000 "session_1700000100000"
                 Examples.mark_uploaded Examples.two_sessions))
    = length (storedValue Examples.two_sessions).
Proof.
  intros s. split; [reflexivity |]. split; [discriminate |].
  apply (updateSession_keeps_others true 1700000300000 "session_1700000100000"
           Examples.mark_uploaded Examples.two_sessions 1 s);
    [reflexivity | discriminate].
Defined.

Lemma merge_merge (s : WalkthroughSession.t) (updates : Partial.t) (now now' : Z) :
  merge (merge s updates now) updates now' = merge s updates now'.
Proof.
  unfold merge. destruct updates as [ui ut ud uf uc uu up upr ul um]. simpl.
  destruct ui, ut, ud, uf, uc, up, upr, ul, um; reflexivity.
Qed.

(** X18: making the same update again only moves the timestamp: when the
    partial fields do not change the id, two [updateSession] calls with them
    leave the list the second call alone would have left. *)
Theorem updateSession_again (written written' : bool) (now now' : Z) (i : string)
    (updates : Partial.t) (c : Sessions) :
  default i (Partial.id updates) = i →
  storedValue (updateSession written' now' i updates
                 (updateSession written now i updates c))
  = storedValue (updateSession written' now' i updates c).
Proof.
  intros Hu. rewrite !StorageSpec.updateSession_storedValue.
  rewrite <- list_fmap_compose. apply list_fmap_ext. intros _ s _. simpl.
  destruct (decide (id s = i)) as [Heq | Hne].
  - assert (id (merge s updates now) = i) as Hm.
    { unfold merge. simpl. destruct (Partial.id updates); simpl in *; congruence. }
    destruct (decide (id (merge s updates now) = i)); [| contradiction].
    apply merge_merge.
  - now destruct (decide (id s = i)).
Qed.

Lemma updateSession_again_witness :
  default "session_1700000100000" (Partial.id Examples.mark_uploaded)
    = "session_1700000100000"
  ∧ storedValue
      (updateSession true 1700000400000 "session_1700000100000" Examples.mark_uploaded
         (updateSession true 1700000300000 "session_1700000100000"
            Examples.mark_uploaded Examples.two_sessions))
    = storedValue
        (updateSession true 1700000400000 "session_1700000100000"
           Examples.mark_uploaded Examples.two_sessions).
Proof.
  split; [reflexivity |].
  apply (updateSession_again true true 1700000300000 1700000400000
           "session_1700000100000" Examples.mark_uploaded Examples.two_sessions).
  reflexivity.
Defined.

Lemma store_run_snoc (ops : list StoreTrace.Op) (o : StoreTrace.Op) (c : Sessions) :
  StoreTrace.run (ops ++ [o]) c = StoreTrace.apply (StoreTrace.run ops c) o.
Proof. unfold StoreTrace.run. now rewrite foldl_app. Qed.

Lemma apply_storedValue (c c' : Sessions) (o : StoreTrace.Op) :
  storedValue c = storedValue c' →
  storedValue (StoreTrace.apply c o) = storedValue (StoreTrace.apply c' (StoreTrace.writing o)).
Proof.
  intros E. destruct o; simpl; unfold addSession, updateSession, deleteSession, setValue;
    simpl; now rewrite E.
Qed.

(** X19: the list in memory never depends on whether the writes to
    [localStorage] went through: after any operations it is what it would be
    had every write succeeded.  What [localStorage] holds is the list as of
    the last write that went through: the list in memory when the last
    operation wrote, and what it held before when none did. *)
Theorem store_memory_and_disk (ops : list StoreTrace.Op) (c : Sessions) :
  storedValue (StoreTrace.run ops c)
    = storedValue (StoreTrace.run (StoreTrace.writing <$> ops) c)
  ∧ (∀ o, last ops = Some o → StoreTrace.wrote o = true →
       item (StoreTrace.run ops c) = Some (storedValue (StoreTrace.run ops c)))
  ∧ (forallb (λ o, negb (StoreTrace.wrote o)) ops = true →
       item (StoreTrace.run ops c) = item c).
Proof.
  split; [| split].
  - induction ops as [|o ops IH] using rev_ind; [reflexivity |].
    rewrite fmap_app. change (StoreTrace.writing <$> [o]) with [StoreTrace.writing o].
    rewrite !store_run_snoc. now apply apply_storedValue.
  - intros o Hlast Hw.
    destruct ops as [|o' ops] using rev_ind; [discriminate |].
    rewrite last_snoc in Hlast. injection Hlast as ->.
    rewrite store_run_snoc.
    destruct o; simpl in *; subst; reflexivity.
  - induction ops as [|o ops IH] using rev_ind; [reflexivity |].
    rewrite forallb_app. simpl. rewrite andb_true_r.
    intros [Hops Ho]%andb_true_iff. rewrite store_run_snoc.
    rewrite <- (IH Hops).
    destruct o; simpl in *; apply negb_true_iff in Ho; subst; reflexivity.
Qed.

Lemma store_memory_and_disk_witness :
  let s := Examples.saved "session_1700000200000" 3 1700000220000 1700000220000 in
  let ops := [StoreTrace.Add false s; StoreTrace.Delete true "session_1700000000000"] in
  let quiet := [StoreTrace.Add false s; StoreTrace.Delete false "session_1700000000000"] in
  storedValue (StoreTrace.run ops Examples.two_sessions)
    = storedValue (StoreTrace.run (StoreTrace.writing <$> ops) Examples.two_sessions)
  ∧ (last ops = Some (StoreTrace.Delete true "session_1700000000000")
     ∧ StoreTrace.wrote (StoreTrace.Delete true "session_1700000000000") = true
     ∧ item (StoreTrace.run ops Examples.two_sessions)
       = Some (storedValue (StoreTrace.run ops Examples.two_sessions)))
  ∧ (forallb (λ o, negb (StoreTrace.wrote o)) quiet = true
     ∧ item (StoreTrace.run quiet Examples.two_sessions) = item Examples.two_sessions).
Proof.
  intros s ops quiet.
  destruct (store_memory_and_disk ops Examples.two_sessions) as (H1 & H2 & _).
  destruct (store_memory_and_disk quiet Examples.two_sessions) as (_ & _ & H3).
  split; [exact H1 |].
  split.
  - split; [reflexivity |]. split; [reflexivity |].
    apply (H2 (StoreTrace.Delete true "session_1700000000000")); reflexivity.
  - split; [reflexivity |]. apply H3. reflexivity.
Defined.

End StorageFacts.

Module ViewerFacts.
Import WalkthroughSession Viewer ViewerRender.

Lemma percent_bounds (i m : Z) :
  0 ≤ i ≤ m → 1 ≤ m →
  (0 <= inject_Z i / inject_Z m * inject_Z 100)%Q
  ∧ (inject_Z i / inject_Z m * inject_Z 100 <= 100)%Q.
Proof.
  intros Hi Hm. destruct m as [|p|p]; try lia.
  unfold Qle, Qdiv, Qmult, Qinv, inject_Z. simpl.
  rewrite ?Pos.mul_1_r, ?Z.mul_1_r. split; lia.
Qed.

(** One press of "next" from an index not beyond the last frame. *)
Lemma goToNextFrame_index (st : ViewerState) :
  currentFrameIndex st ≤ frameCount st - 1 →
  goToNextFrame st =
    setCurrentFrameIndex (Z.min (currentFrameIndex st + 1) (frameCount st - 1)) st.
Proof.
  intros Hi. unfold goToNextFrame.
  destruct (Z.ltb_spec (currentFrameIndex st) (frameCount st - 1)).
  - f_equal. lia.
  - destruct st. unfold setCurrentFrameIndex. simpl in *. f_equal. lia.
Qed.

Lemma nexts_index (k : nat) (st : ViewerState) :
  currentFrameIndex st ≤ frameCount st - 1 →
  nexts k st =
    setCurrentFrameIndex (Z.min (currentFrameIndex st + Z.of_nat k) (frameCount st - 1)) st.
Proof.
  intros Hi. induction k as [|k IH].
  - unfold nexts. simpl. destruct st. unfold setCurrentFrameIndex. simpl in *.
    f_equal. lia.
  - unfold nexts in *. simpl. rewrite IH.
    rewrite goToNextFrame_index; simpl;
      [| rewrite ViewerSpec.frameCount_setCurrentFrameIndex; lia].
    unfold setCurrentFrameIndex. simpl. f_equal.
    change (frameCount _) with (frameCount st). lia.
Qed.

(** X20: "next" is clamped at the last frame: from a walkthrough just
    loaded, [k] presses lead to frame [k], or to the last frame when there
    are fewer than [k + 1] frames; with no frame at all they do nothing. *)
Theorem nexts_from_start (s : WalkthroughSession.t) (k : nat) :
  nexts k (load s) =
    setCurrentFrameIndex
      (Z.max 0 (Z.min (Z.of_nat k) (Z.of_nat (length (frames s)) - 1))) (load s).
Proof.
  destruct (frames s) as [|f fs] eqn:Hfs.
  - assert (∀ st, frameCount st = 0 → currentFrameIndex st = 0 → goToNextFrame st = st) as Hstay.
    { intros st Hn Hi. unfold goToNextFrame. now rewrite Hn, Hi. }
    replace (Z.max 0 _) with 0 by (simpl; lia).
    induction k as [|k IH]; [reflexivity |].
    unfold nexts in *. simpl. rewrite IH. apply Hstay; [| reflexivity].
    unfold frameCount. simpl. now rewrite Hfs.
  - rewrite nexts_index; unfold frameCount; simpl; rewrite Hfs; simpl length; [| lia].
    f_equal. lia.
Qed.

(** X21: inside the walkthrough "next" and "previous" undo each other, and
    at the two ends the button that would leave the walkthrough does
    nothing. *)
Theorem next_prev_round_trip (st : ViewerState) :
  0 ≤ currentFrameIndex st ≤ frameCount st - 1 →
  (currentFrameIndex st < frameCount st - 1 → goToPrevFrame (goToNextFrame st) = st)
  ∧ (0 < currentFrameIndex st → goToNextFrame (goToPrevFrame st) = st)
  ∧ (currentFrameIndex st = frameCount st - 1 → goToNextFrame st = st)
  ∧ (currentFrameIndex st = 0 → goToPrevFrame st = st).
Proof.
  intros Hi. unfold goToNextFrame, goToPrevFrame. repeat split.
  - intros Hlt.
    destruct (Z.ltb_spec (currentFrameIndex st) (frameCount st - 1)); [| lia]. simpl.
    destruct (Z.ltb_spec 0 (currentFrameIndex st + 1)); [| lia].
    destruct st. unfold setCurrentFrameIndex. simpl. f_equal. lia.
  - intros Hpos.
    destruct (Z.ltb_spec 0 (currentFrameIndex st)); [| lia]. simpl.
    rewrite ViewerSpec.frameCount_setCurrentFrameIndex.
    destruct (Z.ltb_spec (currentFrameIndex st - 1) (frameCount st - 1)); [| lia].
    destruct st. unfold setCurrentFrameIndex. simpl. f_equal. lia.
  - intros Hlast.
    destruct (Z.ltb_spec (currentFrameIndex st) (frameCount st - 1)); [lia | reflexivity].
  - intros Hfirst.
    destruct (Z.ltb_spec 0 (currentFrameIndex st)); [lia | reflexivity].
Qed.

Lemma next_prev_round_trip_witness :
  let st := goToNextFrame (Examples.viewing 5) in
  0 ≤ currentFrameIndex st ≤ frameCount st - 1
  ∧ (currentFrameIndex st < frameCount st - 1 → goToPrevFrame (goToNextFrame st) = st)
  ∧ (0 < currentFrameIndex st → goToNextFrame (goToPrevFrame st) = st)
  ∧ (currentFrameIndex st = frameCount st - 1 → goToNextFrame st = st)
  ∧ (currentFrameIndex st = 0 → goToPrevFrame st = st).
Proof.
  intros st.
  split; [split; vm_compute; discriminate |].
  apply (next_prev_round_trip st). split; vm_compute; discriminate.
Defined.

(** With no frame the index stays 0 whatever happens. *)
Lemma perform_no_frames (st : ViewerState) (a : Action) :
  frameCount st = 0 → currentFrameIndex st = 0 →
  currentFrameIndex (perform st a) = 0.
Proof.
  intros Hn Hi. destruct a; simpl; auto.
  - unfold goToNextFrame. rewrite Hn, Hi. simpl. exact Hi.
  - unfold goToPrevFrame. rewrite Hi. simpl. exact Hi.
  - rewrite Hn. lia.
  - unfold tick. destruct (negb _); [exact Hi |]. rewrite Hn, Hi. reflexivity.
Qed.

(** X22: whatever is done to the viewer, the index stays on a frame of the
    walkthrough (at 0 when it has none), so a walkthrough with frames always
    has a current frame to show. *)
Theorem index_stays_on_a_frame (acts : list Action) (s : WalkthroughSession.t) :
  0 ≤ currentFrameIndex (after acts s) ≤ Z.max 0 (Z.of_nat (length (frames s)) - 1)
  ∧ (frames s ≠ [] → is_Some (currentFrame (after acts s))).
Proof.
  destruct (decide (frames s = [])) as [He | Hne].
  - assert (frameCount (after acts s) = 0 ∧ currentFrameIndex (after acts s) = 0) as [Hn Hi].
    { induction acts as [|a acts IH] using rev_ind.
      - unfold after, frameCount. simpl. now rewrite He.
      - destruct IH as [Hn Hi]. rewrite ViewerSpec.after_snoc.
        rewrite ViewerSpec.perform_frameCount. split; [exact Hn |].
        now apply perform_no_frames. }
    split; [rewrite Hi, He; simpl; lia | contradiction].
  - destruct (ViewerSpec.after_in_range acts s Hne) as (Hc & Hn & Hi).
    split; [lia |]. intros _.
    unfold currentFrame, js_index.
    destruct (Z.ltb_spec (currentFrameIndex (after acts s)) 0); [lia |].
    apply lookup_lt_is_Some.
    assert (session (after acts s) = s) as ->.
    { clear. induction acts as [|a acts IH] using rev_ind; [reflexivity |].
      now rewrite ViewerSpec.after_snoc, ViewerSpec.perform_session. }
    lia.
Qed.

Lemma index_stays_on_a_frame_witness :
  let s := Examples.saved "session_1700000000000" 5 1700000020000 1700000020000 in
  let acts := [Next; Drag 1 7; Toggle; Tick; Prev] in
  0 ≤ currentFrameIndex (after acts s) ≤ 4
  ∧ frames s ≠ []
  ∧ is_Some (currentFrame (after acts s)).
Proof.
  intros s acts.
  destruct (index_stays_on_a_frame acts s) as [H1 H2].
  split; [exact H1 |]. split; [discriminate |]. apply H2. discriminate.
Defined.

(** X23: for a walkthrough of at least two frames the progress value is
    always a number between 0 and 100, whatever has been done to the
    viewer. *)
Theorem progress_within_percent (acts : list Action) (s : WalkthroughSession.t) :
  (2 ≤ length (frames s))%nat →
  between 0 100 (progress (after acts s)).
Proof.
  intros Hlen.
  assert (frames s ≠ []) as Hne by (destruct (frames s); [simpl in Hlen; lia | discriminate]).
  destruct (ViewerSpec.after_in_range acts s Hne) as (Hc & Hn & Hi).
  rewrite ViewerSpec.progress_finite by lia.
  apply percent_bounds; lia.
Qed.

Lemma progress_within_percent_witness :
  let s := Examples.saved "session_1700000000000" 5 1700000020000 1700000020000 in
  (2 ≤ length (frames s))%nat
  ∧ between 0 100 (progress (after [Next; Drag 1 7; Toggle; Tick; Prev] s)).
Proof.
  intros s. split; [vm_compute; lia |].
  apply (progress_within_percent [Next; Drag 1 7; Toggle; Tick; Prev] s).
  vm_compute; lia.
Defined.

(** X24: playing a walkthrough through once brings the viewer back to the
    state it was loaded in: from the first frame, as many ticks as there are
    frames end at frame 0, paused. *)
Theorem play_through_once (s : WalkthroughSession.t) :
  frames s ≠ [] →
  ticks (length (frames s)) (togglePlayback (load s)) = load s.
Proof.
  intros Hne.
  assert (1 ≤ Z.of_nat (length (frames s))) as Hlen.
  { destruct (frames s); [contradiction | simpl; lia]. }
  pose proof (ViewerSpec.ticks_to_end (togglePlayback (load s))) as H.
  change (frameCount (togglePlayback (load s))) with (Z.of_nat (length (frames s))) in H.
  change (currentFrameIndex (togglePlayback (load s))) with 0 in H.
  rewrite Z.sub_0_r, Nat2Z.id in H.
  rewrite H; [reflexivity | reflexivity | lia | lia].
Qed.

Lemma play_through_once_witness :
  let s := Examples.saved "session_1700000000000" 5 1700000020000 1700000020000 in
  frames s ≠ []
  ∧ ticks 5 (togglePlayback (load s)) = load s.
Proof.
  intros s. split; [discriminate |].
  apply (play_through_once s). discriminate.
Defined.

End ViewerFacts.

Lemma string_of_uint_colon_free (d : uint) :
  colon_free (NilEmpty.string_of_uint d).
Proof. induction d; simpl; auto; split; auto; discriminate. Qed.

Lemma string_of_number_colon_free (n : Z) :
  colon_free (string_of_number n).
Proof.
  unfold string_of_number, NilEmpty.string_of_int.
  destruct (Z.to_int n) as [d|d]; simpl.
  - apply string_of_uint_colon_free.
  - split; [discriminate | apply string_of_uint_colon_free].
Qed.

Lemma split_at_colon (a a' b b' : string) :
  colon_free a → colon_free a' →
  a +:+ String ":" b = a' +:+ String ":" b' →
  a = a' ∧ b = b'.
Proof.
  revert a'. induction a as [|c a IH]; intros [|c' a'] Ha Ha' E; simpl in *.
  - injection E as E. auto.
  - injection E as Ec _. destruct Ha' as [Hc _]. congruence.
  - injection E as Ec _. destruct Ha as [Hc _]. congruence.
  - injection E as Ec E. destruct Ha as [_ Ha], Ha' as [_ Ha'].
    destruct (IH a' Ha Ha' E) as [-> ->]. subst. auto.
Qed.

Module GalleryFacts.
Import Gallery.

Lemma seconds_shown_NoDup : NoDup seconds_shown.
Proof. refine (bool_decide_unpack (NoDup seconds_shown) _). vm_compute. exact I. Qed.

Lemma seconds_shown_two_digits :
  Forall (λ s, String.length s = 2%nat) seconds_shown.
Proof.
  refine (bool_decide_unpack (Forall (λ s, String.length s = 2%nat) seconds_shown) _).
  vm_compute. exact I.
Qed.

Lemma seconds_shown_lookup (r : Z) :
  0 ≤ r < 60 →
  seconds_shown !! Z.to_nat r = Some (padStart2 (string_of_number r)).
Proof.
  intros Hr. unfold seconds_shown.
  rewrite list_lookup_fmap, lookup_seqZ_lt by lia. simpl. do 3 f_equal. lia.
Qed.

Lemma padded_seconds_inj (r r' : Z) :
  0 ≤ r < 60 → 0 ≤ r' < 60 →
  padStart2 (string_of_number r) = padStart2 (string_of_number r') → r = r'.
Proof.
  intros Hr Hr' E.
  pose proof (seconds_shown_lookup r Hr) as H.
  pose proof (seconds_shown_lookup r' Hr') as H'. rewrite <- E in H'.
  pose proof (proj1 (NoDup_alt _) seconds_shown_NoDup _ _ _ H H'). lia.
Qed.

Lemma formatDuration_nonneg (ms : Z) :
  0 ≤ ms →
  formatDuration ms =
    string_of_number (ms / 60000) +:+ ":"
      +:+ padStart2 (string_of_number ((ms / 1000) mod 60)).
Proof.
  intros Hms. unfold formatDuration.
  rewrite Z.div_div by lia. rewrite Z.rem_mod_nonneg; [reflexivity | | lia].
  apply Z.div_pos; lia.
Qed.

(** X25: for a duration between 0 and [MAX_SAFE_INTEGER] milliseconds,
    [formatDuration] shows the whole minutes, a colon and the remaining
    seconds on exactly two digits; two such durations are shown alike
    exactly when they agree to the second. *)
Theorem formatDuration_minutes_seconds (a b : Z) :
  0 ≤ a ≤ MAX_SAFE_INTEGER → 0 ≤ b ≤ MAX_SAFE_INTEGER →
  (∃ ss, formatDuration a = string_of_number (a / 60000) +:+ ":" +:+ ss
         ∧ String.length ss = 2%nat
         ∧ ss = padStart2 (string_of_number ((a / 1000) mod 60)))
  ∧ (formatDuration a = formatDuration b ↔ a / 1000 = b / 1000).
Proof.
  intros [Ha _] [Hb _].
  assert (∀ x, 0 ≤ x → 0 ≤ (x / 1000) mod 60 < 60) as Hmod
    by (intros; apply Z.mod_pos_bound; lia).
  split.
  - exists (padStart2 (string_of_number ((a / 1000) mod 60))).
    split; [now apply formatDuration_nonneg |]. split; [| reflexivity].
    pose proof seconds_shown_two_digits as Hall.
    rewrite Forall_lookup in Hall.
    apply (Hall _ _ (seconds_shown_lookup _ (Hmod a Ha))).
  - split.
    + rewrite !formatDuration_nonneg by assumption. simpl. intros E.
      apply split_at_colon in E as [Em Es];
        auto using string_of_number_colon_free.
      apply string_of_number_inj in Em.
      apply padded_seconds_inj in Es; auto.
      assert (∀ x, x / 60000 = x / 1000 / 60) as Hdiv
        by (intros; rewrite Z.div_div by lia; reflexivity).
      rewrite !Hdiv in Em.
      rewrite (Z.div_mod (a / 1000) 60), (Z.div_mod (b / 1000) 60) by lia.
      now rewrite Em, Es.
    + intros E. unfold formatDuration. now rewrite E.
Qed.

Lemma formatDuration_minutes_seconds_witness :
  0 ≤ 61500 ≤ MAX_SAFE_INTEGER ∧ 0 ≤ 61999 ≤ MAX_SAFE_INTEGER
  ∧ (∃ ss, formatDuration 61500 = string_of_number (61500 / 60000) +:+ ":" +:+ ss
           ∧ String.length ss = 2%nat
           ∧ ss = padStart2 (string_of_number ((61500 / 1000) mod 60)))
  ∧ (formatDuration 61500 = formatDuration 61999 ↔ 61500 / 1000 = 61999 / 1000).
Proof.
  split; [unfold MAX_SAFE_INTEGER; lia |]. split; [unfold MAX_SAFE_INTEGER; lia |].
  apply (formatDuration_minutes_seconds 61500 61999); unfold MAX_SAFE_INTEGER; lia.
Defined.

End GalleryFacts.

Module InterfaceFacts.
Import CaptureSession Camera CameraTrace CameraInterface.

(** X26: on the capture screen the guidance text always exists and the
    progress never divides by zero, after any calls of the hook: progress is
    the step count over ten, in percent, and from the ninth step on (also
    past the tenth) the text is the closing one. *)
Theorem guidance_and_progress_defined (cs : list Call) :
  is_Some (guidanceText (run cs idle))
  ∧ (9 ≤ CameraInterface.currentStep (run cs idle) →
     guidanceText (run cs idle) = Some "Walkthrough capture complete!")
  ∧ 0 ≤ CameraInterface.currentStep (run cs idle)
  ∧ progress (run cs idle) =
      Finite (inject_Z (CameraInterface.currentStep (run cs idle)) / inject_Z 10
              * inject_Z 100).
Proof.
  assert (0 ≤ CameraInterface.currentStep (run cs idle)
          ∧ CameraInterface.totalSteps (run cs idle) = 10) as [Hstep Htot].
  { unfold CameraInterface.currentStep, CameraInterface.totalSteps.
    destruct (currentSession (run cs idle)) as [s|] eqn:Hs; simpl; [| split; [lia | reflexivity]].
    destruct (CameraSpec.run_ok cs s Hs) as (Ht & Hc & _ & _).
    rewrite Ht, Hc. simpl. split; [| reflexivity].
    destruct (Z.eqb_spec (Z.of_nat (length (frames s))) 0); lia. }
  assert (∀ i, 0 ≤ i → is_Some (js_index GUIDANCE_STEPS (Z.min i 9))
                        ∧ (9 ≤ i → js_index GUIDANCE_STEPS (Z.min i 9)
                                   = Some "Walkthrough capture complete!")) as Hidx.
  { intros i Hi. unfold js_index.
    destruct (Z.ltb_spec (Z.min i 9) 0); [lia |]. split.
    - apply lookup_lt_is_Some. simpl. lia.
    - intros H9. replace (Z.min i 9) with 9 by lia. reflexivity. }
  unfold guidanceText, progress. rewrite Htot.
  change (Z.of_nat (length GUIDANCE_STEPS) - 1) with 9.
  destruct (Hidx _ Hstep) as [Hsome Hlast].
  repeat split; auto.
Qed.

Lemma guidance_and_progress_defined_witness :
  let cs := Start 1699999999000 1699999999000
              :: (Capture <$> replicate 11 Examples.browser_frame) in
  is_Some (guidanceText (run cs idle))
  ∧ 9 ≤ CameraInterface.currentStep (run cs idle)
  ∧ guidanceText (run cs idle) = Some "Walkthrough capture complete!"
  ∧ 0 ≤ CameraInterface.currentStep (run cs idle)
  ∧ progress (run cs idle) =
      Finite (inject_Z (CameraInterface.currentStep (run cs idle)) / inject_Z 10
              * inject_Z 100).
Proof.
  intros cs.
  destruct (guidance_and_progress_defined cs) as (H1 & H2 & H3 & H4).
  split; [exact H1 |].
  assert (9 ≤ CameraInterface.currentStep (run cs idle)) as H9
    by (vm_compute; discriminate).
  split; [exact H9 |]. split; [exact (H2 H9) |]. split; [exact H3 | exact H4].
Defined.

(** X27: the stop button: [handleStop] reports the session as complete,
    under its id, exactly when the hook holds a session and at least one
    capture acquired an image since it was started; otherwise it closes the
    screen.  Either way the hook is no longer capturing. *)
Theorem handleStop_outcome (cs : list Call) :
  (handleStop (run cs idle)).1 =
    match currentSession (run cs idle) with
    | Some cur =>
        if (0 <? successes_since_start cs)%nat then onSessionComplete (id cur)
        else onClose
    | None => onClose
    end
  ∧ isCapturing (handleStop (run cs idle)).2 = false.
Proof.
  unfold handleStop.
  destruct (currentSession (run cs idle)) as [cur|] eqn:Hcur.
  - rewrite (CameraSpec.stopCaptureSession_Some _ cur Hcur). simpl.
    rewrite (CameraFacts.frames_count_successes cs cur Hcur). split; [| reflexivity].
    destruct (successes_since_start cs); reflexivity.
  - rewrite (CameraSpec.stopCaptureSession_None _ Hcur). simpl. auto.
Qed.

(** Every session the hook makes is named after a clock reading. *)
Lemma session_named (cs : list Call) (s : CaptureSession.t) :
  currentSession (run cs idle) = Some s → ∃ now, id s = session_id now.
Proof.
  revert s. induction cs as [|c cs IH] using rev_ind; intros s Hs; [discriminate |].
  rewrite CameraSpec.run_snoc in Hs.
  destruct c as [t1 t2 | w | | ]; simpl in Hs.
  - injection Hs as <-. simpl. eauto.
  - unfold captureFrame in Hs.
    destruct (currentSession (run cs idle)) as [cur|] eqn:Hcur; simpl in Hs; [| congruence].
    destruct (acquire w); simpl in Hs.
    + injection Hs as <-. simpl. now apply IH.
    + rewrite Hcur in Hs. injection Hs as <-. now apply IH.
  - unfold stopCaptureSession in Hs.
    destruct (currentSession (run cs idle)) as [cur|] eqn:Hcur; simpl in Hs; [| discriminate].
    injection Hs as <-. simpl. now apply IH.
  - discriminate.
Qed.

End InterfaceFacts.

Module IndexFacts.
Import WalkthroughSession Index.

(** X28: with a session pending, [handleDescriptionSave] puts at the front
    of the store a walkthrough with the pending id and the given title and
    description, always with no frames and a frame count of 0, not uploaded,
    stamped with the two clock readings; it shows the gallery and clears the
    pending id, so that saving again does nothing. *)
Theorem handleDescriptionSave_stores_mock (written : bool) (now_created now_updated : Z)
    (userAgent title description : string) (st : PageState) :
  pendingSessionId st ≠ "" →
  let st' := handleDescriptionSave written now_created now_updated userAgent
               title description st in
  ∃ m,
    Storage.storedValue (sessions st') = m :: Storage.storedValue (sessions st)
    ∧ Storage.getSession (pendingSessionId st) (sessions st') = Some m
    ∧ id m = pendingSessionId st
    ∧ WalkthroughSession.title m = title
    ∧ WalkthroughSession.description m = description
    ∧ frames m = []
    ∧ Metadata.totalFrames (metadata m) = 0
    ∧ isUploaded m = false
    ∧ createdAt m = now_created ∧ updatedAt m = now_updated
    ∧ currentView st' = gallery
    ∧ pendingSessionId st' = ""
    ∧ ∀ written' t1 t2 ua title' description',
        handleDescriptionSave written' t1 t2 ua title' description' st' = st'.
Proof.
  intros Hp st'. subst st'. unfold handleDescriptionSave.
  destruct (decide (pendingSessionId st = "")) as [|_]; [contradiction |].
  eexists. split; [reflexivity |]. simpl.
  split.
  { unfold Storage.addSession, Storage.setValue. simpl.
    rewrite (StorageFacts.getSession_cons _ _ _ _ None). simpl.
    now destruct (decide (pendingSessionId st = pendingSessionId st)). }
  repeat split.
Qed.

Lemma handleDescriptionSave_stores_mock_witness :
  let st := handleCameraSessionComplete "session_1700000200000"
              {| currentView := camera;
                 selectedSessionId := "";
                 pendingSessionId := "";
                 sessions := Examples.two_sessions |} in
  let st' := handleDescriptionSave true 1700000230000 1700000230001 "Mozilla/5.0"
               "Cafeteria Hall" "" st in
  pendingSessionId st ≠ ""
  ∧ ∃ m,
      Storage.storedValue (sessions st') = m :: Storage.storedValue (sessions st)
      ∧ Storage.getSession (pendingSessionId st) (sessions st') = Some m
      ∧ id m = pendingSessionId st
      ∧ WalkthroughSession.title m = "Cafeteria Hall"
      ∧ WalkthroughSession.description m = ""
      ∧ frames m = []
      ∧ Metadata.totalFrames (metadata m) = 0
      ∧ isUploaded m = false
      ∧ createdAt m = 1700000230000 ∧ updatedAt m = 1700000230001
      ∧ currentView st' = gallery
      ∧ pendingSessionId st' = ""
      ∧ ∀ written' t1 t2 ua title' description',
          handleDescriptionSave written' t1 t2 ua title' description' st' = st'.
Proof.
  intros st st'. split; [discriminate |].
  apply (handleDescriptionSave_stores_mock true 1700000230000 1700000230001
           "Mozilla/5.0" "Cafeteria Hall" "" st).
  discriminate.
Defined.

(** X29: the "Save" button either changes nothing (blank title, or no
    session pending) or adds exactly one walkthrough, whose title is the
    trimmed title and is not empty. *)
Theorem save_never_stores_blank_title (trim : string → string) (written : bool)
    (now_created now_updated : Z) (userAgent title description : string) (st : PageState) :
  let st' := save trim written now_created now_updated userAgent title description st in
  st' = st
  ∨ ∃ m,
      Storage.storedValue (sessions st') = m :: Storage.storedValue (sessions st)
      ∧ WalkthroughSession.title m = trim title
      ∧ WalkthroughSession.title m ≠ ""
      ∧ WalkthroughSession.description m = trim description.
Proof.
  intros st'. subst st'. unfold save, DescriptionInput.handleSave.
  destruct (decide (trim title = "")) as [|Ht]; [now left |].
  unfold handleDescriptionSave.
  destruct (decide (pendingSessionId st = "")); [now left |].
  right. eexists. split; [reflexivity |]. simpl. auto.
Qed.

(** X30: from the capture screen to the store: when the hook holds a session
    with at least one frame, stopping reports it under its id, and saving
    with a title that is not blank stores a walkthrough under that same id;
    the captured frames are in [localStorage] under [session_<id>], while the
    stored walkthrough itself has none. *)
Theorem capture_to_store (cs : list Camera.Call) (cur : CaptureSession.t)
    (trim : string → string) (written : bool) (now_created now_updated : Z)
    (userAgent title description : string) (page : PageState) :
  Camera.currentSession (Camera.run cs Camera.idle) = Some cur →
  CaptureSession.frames cur ≠ [] →
  trim title ≠ "" →
  let stopped := CameraInterface.handleStop (Camera.run cs Camera.idle) in
  let page' := save trim written now_created now_updated userAgent title description
                 (handleCameraSessionComplete (CaptureSession.id cur) page) in
  stopped.1 = CameraInterface.onSessionComplete (CaptureSession.id cur)
  ∧ Camera.localStorage stopped.2 !! ("session_" +:+ CaptureSession.id cur)
    = Some (CaptureSession.frames cur)
  ∧ ∃ m,
      Storage.getSession (CaptureSession.id cur) (sessions page') = Some m
      ∧ id m = CaptureSession.id cur
      ∧ frames m = []
      ∧ currentView page' = gallery.
Proof.
  intros Hcur Hframes Htitle stopped page'. subst stopped page'.
  destruct (InterfaceFacts.session_named cs cur Hcur) as [now Hid].
  assert (CaptureSession.id cur ≠ "") as Hne.
  { rewrite Hid. unfold Camera.session_id. simpl. discriminate. }
  split; [| split].
  - unfold CameraInterface.handleStop.
    rewrite (CameraSpec.stopCaptureSession_Some _ cur Hcur). simpl.
    destruct (CaptureSession.frames cur); [contradiction | reflexivity].
  - unfold CameraInterface.handleStop.
    rewrite (CameraSpec.stopCaptureSession_Some _ cur Hcur). simpl.
    apply lookup_insert_eq.
  - unfold save, DescriptionInput.handleSave.
    destruct (decide (trim title = "")); [contradiction |].
    unfold handleDescriptionSave. simpl.
    destruct (decide (CaptureSession.id cur = "")); [contradiction |].
    eexists. split.
    { unfold Storage.addSession, Storage.setValue. simpl.
      rewrite (StorageFacts.getSession_cons _ _ _ _ None). simpl.
      destruct (decide (CaptureSession.id cur = CaptureSession.id cur));
        [reflexivity | contradiction]. }
    simpl. repeat split.
Qed.

Lemma capture_to_store_witness :
  let cs := [Camera.Start 1699999999000 1699999999000;
             Camera.Capture Examples.device_frame] in
  let cur := Camera.updatedSession
               (Camera.startCaptureSession 1699999999000 1699999999000 Camera.idle).1
               Examples.device_frame "data:image/jpeg;base64,/9j/4AAQ" in
  let page := {| currentView := camera;
                 selectedSessionId := "";
                 pendingSessionId := "";
                 sessions := Examples.two_sessions |} in
  let stopped := CameraInterface.handleStop (Camera.run cs Camera.idle) in
  let page' := save (λ s, s) true 1700000230000 1700000230001 "Mozilla/5.0"
                 "Cafeteria Hall" ""
                 (handleCameraSessionComplete (CaptureSession.id cur) page) in
  Camera.currentSession (Camera.run cs Camera.idle) = Some cur
  ∧ CaptureSession.frames cur ≠ []
  ∧ "Cafeteria Hall" ≠ ""
  ∧ stopped.1 = CameraInterface.onSessionComplete (CaptureSession.id cur)
  ∧ Camera.localStorage stopped.2 !! ("session_" +:+ CaptureSession.id cur)
    = Some (CaptureSession.frames cur)
  ∧ ∃ m,
      Storage.getSession (CaptureSession.id cur) (sessions page') = Some m
      ∧ id m = CaptureSession.id cur
      ∧ frames m = []
      ∧ currentView page' = gallery.
Proof.
  intros cs cur page stopped page'.
  split; [reflexivity |]. split; [discriminate |]. split; [discriminate |].
  apply (capture_to_store cs cur (λ s, s) true 1700000230000 1700000230001
           "Mozilla/5.0" "Cafeteria Hall" "" page);
    [reflexivity | discriminate | discriminate].
Defined.

End IndexFacts.
